(** * pyTracking: the identity registry of [TrackedObject.py]

    A shallow embedding of the metaclass [TrackedType] and of the abstract
    class [TrackedObject] (Python 2: [__metaclass__ = TrackedType]), and the
    properties of the class statement and of the construction call
    [cls(instance_id, *args, **kw)].

    Conventions of the embedding.
    - Python values that travel through the registry (ids, positional and
      keyword arguments, data attributes) are [pyval]s.  [bool] is a subclass
      of [int] in Python, so [True] and [False] are [VInt 1] and [VInt 0].
      Every [pyval] can be a dictionary key: an id that cannot (a list, say)
      makes the registry lookup raise [TypeError], and has no counterpart
      here.
    - A method bound in a class body ([_load], [reload], the body's own
      [__init__]) is a [hook]: it receives the id, the positional and the
      keyword arguments and the [__dict__] of [self], and gives back the new
      [__dict__] together with the exception it raised, if any.  Whatever it
      did before raising stays done.
    - A class is [object], or a class made by [TrackedType] from a name, its
      bases and a dictionary.  An attribute of an instance is looked up in
      the [__dict__] of the instance and then on its class: the class's own
      dictionary, then the bases from left to right, depth first, [object]
      last.  This is the resolution order of Python as long as no class
      other than [object] is inherited along two paths.  The [__dict__] of
      an instance holds values, which cannot be called.  The one data
      descriptor of the module, the property [id], is read through
      [TrackedObject_id].  Class bodies leave the names of the metaclass
      ([get], [add], [clean], [_instances]) alone, and bind [__new__] only
      where [TrackedType.__new__] lets them, which is in no tracked class;
      where a body binds it all the same, the call of [cls.__new__] is not
      given a meaning and raises.
    - The world is a [state]: the recursion depth of [TrackedType._mutex],
      the [_instances] dictionary of every tracked class (classes are told
      apart by their names), the heap of live objects, the allocation
      counter and the trace of the hooks that were invoked.  An object is
      alive as long as it is in the heap; [collect] is the garbage collector
      reclaiming an object that lost its last strong reference.  Addresses
      are never reused, so that a weak reference to a reclaimed object stays
      dead.
    - Code that can raise lives in the monad [M]: a computation returns
      [Ok v] or [Raise e] together with the state it leaves behind. *)

From stdpp Require Import gmap strings list fin_maps.
From Stdlib Require Import ZArith Lia.

Open Scope string_scope.
Open Scope list_scope.

(** ** Values and exceptions *)

Inductive pyval :=
| VNone
| VInt (n : Z)
| VStr (s : string).

#[global] Instance pyval_eq_dec : EqDecision pyval.
Proof. solve_decision. Defined.

#[global] Instance pyval_countable : Countable pyval.
Proof.
  refine (inj_countable'
            (λ v, match v with
                  | VNone => inl ()
                  | VInt n => inr (inl n)
                  | VStr s => inr (inr s)
                  end)
            (λ x, match x with
                  | inl _ => VNone
                  | inr (inl n) => VInt n
                  | inr (inr s) => VStr s
                  end) _).
  by intros [].
Defined.

(** [v is None] *)
Definition is_None (v : pyval) : bool :=
  match v with VNone => true | _ => false end.

(** The truth value of [v] in an [if]. *)
Definition truthy (v : pyval) : bool :=
  match v with
  | VNone => false
  | VInt n => negb (n =? 0)%Z
  | VStr s => negb (String.eqb s "")
  end.

Inductive exn :=
| Exception_ (msg : string)
| TypeError
| AttributeError (attr : string)
| KeyError (key : pyval)
| IndexError
| RuntimeError.

Definition msg_load : string :=
  "Subclasses of TrackedObject must implement a _load method".
Definition msg_new : string :=
  "Subclasses of TrackedObject are not allowed to override __new__".
Definition msg_id : string :=
  "Subclasses of TrackedObject are not allowed to override id".

(** ** Classes *)

Abbreviation attrs := (gmap string pyval).

Definition hook : Type :=
  pyval → list pyval → attrs → attrs → attrs * option exn.

(** The functions of the module itself and of [object], as class members. *)
Inductive native :=
| fn_TrackedObject_init
| fn_TrackedObject_new
| fn_TrackedObject_id
| fn_object_init
| fn_object_new.

(** What a class dictionary binds a name to: a data attribute, a function of
    the class body, or one of the functions above. *)
Inductive member :=
| MData (v : pyval)
| MFun (h : hook)
| MNative (f : native).

(** A value where an attribute is expected is that value as a data
    attribute. *)
Coercion MData : pyval >-> member.

(** [object], or a class whose metaclass is [TrackedType]. *)
#[warnings="-register-all"]
Inductive pyclass :=
| PyObject
| PyClass (nom : string) (bases : list pyclass) (dct : gmap string member).

Definition is_object (c : pyclass) : bool :=
  match c with PyObject => true | PyClass _ _ _ => false end.

(** [object in bases] *)
Definition object_in (bases : list pyclass) : bool := existsb is_object bases.

(** ["k" in dct] *)
Definition has_key {V} (k : string) (dct : gmap string V) : bool :=
  match dct !! k with Some _ => true | None => false end.

Definition object_dict : gmap string member :=
  {[ "__init__" := MNative fn_object_init;
     "__new__" := MNative fn_object_new ]}.

(** Attribute lookup along the ancestors of a class, [object] excepted: the
    class's own dictionary, then its bases from left to right. *)
Fixpoint class_lookup (c : pyclass) (name : string) : option member :=
  match c with
  | PyObject => None
  | PyClass _ bases dct =>
      match dct !! name with
      | Some m => Some m
      | None =>
          (fix first (bs : list pyclass) : option member :=
             match bs with
             | [] => None
             | b :: bs' =>
                 match class_lookup b name with
                 | Some m => Some m
                 | None => first bs'
                 end
             end) bases
      end
  end.

(** [getattr(cls, name)]: [object] comes last in every resolution order. *)
Definition class_getattr (c : pyclass) (name : string) : option member :=
  match class_lookup c name with
  | Some m => Some m
  | None => object_dict !! name
  end.

(** The class whose [_instances] the expression [cls._instances] finds:
    [TrackedType.__init__] gives a class its own dictionary exactly when
    [object] is not among its bases. *)
Fixpoint registry_name (c : pyclass) : option string :=
  match c with
  | PyObject => None
  | PyClass nom bases _ =>
      if object_in bases then
        (fix first (bs : list pyclass) : option string :=
           match bs with
           | [] => None
           | b :: bs' =>
               match registry_name b with
               | Some n => Some n
               | None => first bs'
               end
           end) bases
      else Some nom
  end.

(** ** The state and the monad *)

Abbreviation addr := nat.

Record event := Event {
  ev_slot : string;
  ev_self : addr;
  ev_id : pyval;
  ev_args : list pyval;
  ev_kw : attrs
}.

(** A live object: its class and its [__dict__]. *)
Record object := Object {
  ob_type : pyclass;
  ob_dict : attrs
}.

Record state := State {
  mutex : nat;
  instances : gmap string (gmap pyval addr);
  heap : gmap addr object;
  next : addr;
  log : list event
}.

Definition set_mutex (n : nat) (s : state) : state :=
  State n (instances s) (heap s) (next s) (log s).
Definition set_instances (i : gmap string (gmap pyval addr)) (s : state) : state :=
  State (mutex s) i (heap s) (next s) (log s).
Definition set_heap (h : gmap addr object) (s : state) : state :=
  State (mutex s) (instances s) h (next s) (log s).
Definition set_next (n : addr) (s : state) : state :=
  State (mutex s) (instances s) (heap s) n (log s).
Definition set_log (l : list event) (s : state) : state :=
  State (mutex s) (instances s) (heap s) (next s) l.

Inductive result (A : Type) :=
| Ok (a : A)
| Raise (e : exn).
Arguments Ok {A} & a.
Arguments Raise {A} e.

Definition M (A : Type) : Type := state → result A * state.

Definition ret {A} (a : A) : M A := λ s, (Ok a, s).
Definition raise {A} (e : exn) : M A := λ s, (Raise e, s).
Definition bind {A B} (m : M A) (k : A → M B) : M B :=
  λ s, match m s with
       | (Ok a, s') => k a s'
       | (Raise e, s') => (Raise e, s')
       end.
(** [try: m  except: h; raise] re-raises through [h]. *)
Definition try_except {A} (m : M A) (h : exn → M A) : M A :=
  λ s, match m s with
       | (Ok a, s') => (Ok a, s')
       | (Raise e, s') => h e s'
       end.

Declare Scope py_scope.
Delimit Scope py_scope with py.
Notation "'let*' x ':=' m 'in' k" := (bind m (λ x, k))
  (at level 10, x name, m at level 100, k at level 200) : py_scope.
Notation "'let*' ' p ':=' m 'in' k" := (bind m (λ p, k))
  (at level 10, p pattern, m at level 100, k at level 200) : py_scope.
Notation "m '>>' k" := (bind m (λ _, k))
  (at level 90, right associativity) : py_scope.
Open Scope py_scope.

(** ** Objects *)

(** [self.__dict__] *)
Definition self_dict (self : addr) (s : state) : attrs :=
  default ∅ (ob_dict <$> heap s !! self).

Definition with_dict (d : attrs) (o : object) : object :=
  Object (ob_type o) d.

(** What the attribute [name] is on an instance of [cls] whose [__dict__]
    is [d]: the value the instance holds under that name, or else what the
    class binds the name to (a function found there comes bound to the
    instance). *)
Definition lookup_attr (cls : pyclass) (d : attrs) (name : string)
    : option member :=
  match d !! name with
  | Some v => Some (MData v)
  | None => class_getattr cls name
  end.

(** What [name] is on the object [obj] in the state [s] *)
Definition attr_of (obj : addr) (name : string) (s : state) : option member :=
  match heap s !! obj with
  | Some o => lookup_attr (ob_type o) (ob_dict o) name
  | None => None
  end.

(** [getattr(obj, name, None)]; no attribute, hence the default [None] of
    the source, is [None] here. *)
Definition getattr (obj : addr) (name : string) : M (option member) :=
  λ s, (Ok (attr_of obj name s), s).

(** [getattr(obj, name, None) is None] *)
Definition reads_None (m : option member) : bool :=
  match m with
  | None => true
  | Some (MData v) => is_None v
  | Some _ => false
  end.

(** [self.name = v] *)
Definition setattr (self : addr) (name : string) (v : pyval) : M unit :=
  λ s, (Ok (),
        set_heap (alter (λ o, with_dict (<[name := v]> (ob_dict o)) o) self (heap s)) s).

(** [object.__new__(cls)] *)
Definition object_new (cls : pyclass) : M addr :=
  λ s, (Ok (next s),
        set_next (S (next s)) (set_heap (<[next s := Object cls ∅]> (heap s)) s)).

(** A weak reference called: the referent while it is alive, else [None]. *)
Definition deref (ref : addr) : M (option addr) :=
  λ s, (Ok (match heap s !! ref with Some _ => Some ref | None => None end), s).

(** The garbage collector reclaims [a]. *)
Definition collect (a : addr) (s : state) : state :=
  set_heap (delete a (heap s)) s.

(** The call [h(instance_id, *args, **kw)] of a hook bound to [self],
    recorded in the trace. *)
Definition invoke (slot : string) (h : hook) (self : addr)
    (instance_id : pyval) (args : list pyval) (kw : attrs) : M unit :=
  λ s, let r := h instance_id args kw (self_dict self s) in
       let s' := set_log (log s ++ [Event slot self instance_id args kw])
                   (set_heap (alter (with_dict r.1) self (heap s)) s) in
       match r.2 with
       | None => (Ok (), s')
       | Some e => (Raise e, s')
       end.

(** [callable(m)] *)
Definition callable (m : option member) : bool :=
  match m with
  | Some (MFun _) | Some (MNative _) => true
  | _ => false
  end.

(** [m(instance_id, *args, **kw)] for the member [m] found under [slot].  A
    class body binds data and functions; a native function rebound under
    another name is not given a meaning here and raises. *)
Definition call_member (slot : string) (m : option member) (self : addr)
    (instance_id : pyval) (args : list pyval) (kw : attrs) : M unit :=
  match m with
  | Some (MFun h) => invoke slot h self instance_id args kw
  | _ => raise TypeError
  end.

(** ** [TrackedType]: the registry *)

Definition lock_tracker : M unit :=
  λ s, (Ok (), set_mutex (S (mutex s)) s).

Definition release_tracker : M unit :=
  λ s, match mutex s with
       | O => (Raise RuntimeError, s)
       | S n => (Ok (), set_mutex n s)
       end.

(** [cls._instances] *)
Definition cls_instances (cls : pyclass) : M (string * gmap pyval addr) :=
  λ s, match registry_name cls with
       | None => (Raise (AttributeError "_instances"), s)
       | Some n =>
           match instances s !! n with
           | Some reg => (Ok (n, reg), s)
           | None => (Raise (AttributeError "_instances"), s)
           end
       end.

Definition store_instances (n : string) (reg : gmap pyval addr) : M unit :=
  λ s, (Ok (), set_instances (<[n := reg]> (instances s)) s).

Definition TrackedType_add (cls : pyclass) (instance_id : pyval) (instance : addr)
    : M unit :=
  let* ' (n, reg) := cls_instances cls in
  store_instances n (<[instance_id := instance]> reg).

Definition TrackedType_clean (cls : pyclass) (instance_id : pyval) : M unit :=
  let* ' (n, reg) := cls_instances cls in
  match reg !! instance_id with
  | Some _ => store_instances n (delete instance_id reg)
  | None => raise (KeyError instance_id)
  end.

Definition TrackedType_get (cls : pyclass) (instance_id : pyval) : M (option addr) :=
  let* ' (_, reg) := cls_instances cls in
  match reg !! instance_id with
  | None => ret None
  | Some ref => deref ref
  end.

(** ** [TrackedObject] *)

(** [obj.name(instance_id, *args, **kw)] *)
Definition call_method (obj : addr) (name : string)
    (instance_id : pyval) (args : list pyval) (kw : attrs) : M unit :=
  let* m := getattr obj name in
  match m with
  | None => raise (AttributeError name)
  | Some _ => call_member name m obj instance_id args kw
  end.

Definition TrackedObject_init (self : addr)
    (instance_id : pyval) (args : list pyval) (kwargs : attrs) : M unit :=
  let* cur := getattr self "_id" in
  if negb (reads_None cur) then ret ()
  else
    setattr self "_id" instance_id >>
    let* tracked_init := getattr self "_tracked_init" in
    (if callable tracked_init
     then call_member "_tracked_init" tracked_init self instance_id args kwargs
     else ret ()) >>
    let* _load := getattr self "_load" in
    call_member "_load" _load self instance_id args kwargs.

(** The property [id]: [return self._id] *)
Definition TrackedObject_id (self : addr) : M member :=
  let* m := getattr self "_id" in
  match m with
  | Some v => ret v
  | None => raise (AttributeError "_id")
  end.

(** [kwargs.get("force_reload")] *)
Definition force_reload (kwargs : attrs) : pyval :=
  default VNone (kwargs !! "force_reload").

Definition TrackedObject_new (cls : pyclass)
    (instance_id : pyval) (args : list pyval) (kwargs : attrs) : M addr :=
  lock_tracker >>
  let* instance := TrackedType_get cls instance_id in
  match instance with
  | Some instance =>
      release_tracker >>
      (if truthy (force_reload kwargs)
       then call_method instance "reload" instance_id args
              (delete "force_reload" kwargs)
       else ret ()) >>
      ret instance
  | None =>
      let* instance := object_new cls in
      TrackedType_add cls instance_id instance >>
      release_tracker >>
      ret instance
  end.

(** The class [TrackedObject] itself.  Its bases are [(object,)], so
    [TrackedType.__new__] leaves its dictionary as the body wrote it. *)
Definition TrackedObject : pyclass :=
  PyClass "TrackedObject" [PyObject]
    {[ "__init__" := MNative fn_TrackedObject_init;
       "id" := MNative fn_TrackedObject_id;
       "__new__" := MNative fn_TrackedObject_new ]}.

(** ** [TrackedType]: class definition and the construction call *)

(** [mcs._mutex = RLock()] *)
Definition new_mutex : M unit := λ s, (Ok (), set_mutex 0 s).

(** [dct[dst] = dct[src]] *)
Definition copy_key (src dst : string) (dct : gmap string member)
    : gmap string member :=
  match dct !! src with
  | Some m => <[dst := m]> dct
  | None => dct
  end.

Definition TrackedType_new (nom : string) (bases : list pyclass)
    (dct : gmap string member) : M pyclass :=
  new_mutex >>
  if negb (object_in bases) then
    if negb (has_key "_load" dct) then raise (Exception_ msg_load)
    else if has_key "__new__" dct then raise (Exception_ msg_new)
    else if has_key "id" dct then raise (Exception_ msg_id)
    else
      let dct := if negb (has_key "reload" dct)
                 then copy_key "_load" "reload" dct else dct in
      let dct := if has_key "__init__" dct
                 then copy_key "__init__" "_tracked_init" dct else dct in
      match bases with
      | [] => raise IndexError
      | base0 :: _ =>
          match class_getattr base0 "__init__" with
          | None => raise (AttributeError "__init__")
          | Some init => ret (PyClass nom bases (<["__init__" := init]> dct))
          end
      end
  else ret (PyClass nom bases dct).

Definition TrackedType_init (cls : pyclass) (nom : string)
    (bases : list pyclass) : M unit :=
  if negb (object_in bases) then store_instances nom ∅ else ret ().

(** The class statement [class nom(bases): dct] under the metaclass. *)
Definition define_class (nom : string) (bases : list pyclass)
    (dct : gmap string member) : M pyclass :=
  let* cls := TrackedType_new nom bases dct in
  TrackedType_init cls nom bases >>
  ret cls.

(** [object.__init__(obj, instance_id, ...)].  The arguments are in
    excess: CPython 2.6 and later raise [TypeError], unless the class of the
    object overrides [__new__]. *)
Definition object_init (obj : addr) : M unit :=
  λ s, match heap s !! obj with
       | Some o =>
           match class_getattr (ob_type o) "__new__" with
           | Some (MNative fn_object_new) => (Raise TypeError, s)
           | _ => (Ok (), s)
           end
       | None => (Ok (), s)
       end.

(** [obj.__init__(instance_id, *args, **kw)] *)
Definition call_init (obj : addr)
    (instance_id : pyval) (args : list pyval) (kw : attrs) : M unit :=
  let* init := getattr obj "__init__" in
  match init with
  | Some (MNative fn_TrackedObject_init) =>
      TrackedObject_init obj instance_id args kw
  | Some (MNative fn_object_init) => object_init obj
  | None => raise (AttributeError "__init__")
  | Some _ => call_member "__init__" init obj instance_id args kw
  end.

(** [cls.__new__(cls, instance_id, *args, **kw)].  For a class derived from
    [TrackedObject] this is [TrackedObject.__new__].  For another class of
    the metaclass it is [object.__new__], for which the arguments are in
    excess: CPython 2.6 and later raise [TypeError] when the class has the
    [__init__] of [object], and allocate otherwise. *)
Definition cls_new (cls : pyclass)
    (instance_id : pyval) (args : list pyval) (kw : attrs) : M addr :=
  match class_getattr cls "__new__" with
  | Some (MNative fn_TrackedObject_new) =>
      TrackedObject_new cls instance_id args kw
  | Some (MNative fn_object_new) =>
      match class_getattr cls "__init__" with
      | Some (MNative fn_object_init) => raise TypeError
      | _ => object_new cls
      end
  | _ => raise TypeError
  end.

(** [cls(instance_id, *args, **kw)] *)
Definition TrackedType_call (cls : pyclass)
    (instance_id : pyval) (args : list pyval) (kw : attrs) : M addr :=
  let* obj := cls_new cls instance_id args kw in
  let kw := if has_key "force_reload" kw then delete "force_reload" kw else kw in
  let* cur := getattr obj "_id" in
  (if reads_None cur
   then try_except (call_init obj instance_id args kw)
          (λ e, TrackedType_clean cls instance_id >> raise e)
   else ret ()) >>
  ret obj.

(** ** A sample family, for running the definitions *)

Definition init_state : state := State 0 ∅ ∅ 0 [].

(** [def _load(self, id, *a, **k): self.color = "red"] *)
Definition widget_load : hook :=
  λ _ _ _ d, (<["color" := VStr "red"]> d, None).

(** [def _load(self, id, ok=None, **k)]: sets [tries], then raises unless
    [ok] is true. *)
Definition flaky_load : hook :=
  λ _ _ kw d,
    (<["tries" := VInt 1]> d,
     if truthy (default VNone (kw !! "ok")) then None
     else Some (Exception_ "boom")).

(** [def reload(self, id, *a, **k): self.stale = 1; raise Exception("nope")] *)
Definition flaky_reload : hook :=
  λ _ _ _ d, (<["stale" := VInt 1]> d, Some (Exception_ "nope")).

Definition run {A} (m : M A) (s : state) : state := (m s).2.
Definition value {A} (m : M A) (s : state) : result A := (m s).1.

(** The class a class statement creates. *)
Definition defined (m : M pyclass) (s : state) : pyclass :=
  match value m s with Ok c => c | Raise _ => PyObject end.

(** [class Widget(TrackedObject)] with [_load] alone *)
Definition widget_body : gmap string member :=
  {[ "_load" := MFun widget_load ]}.
Definition Widget : pyclass :=
  defined (define_class "Widget" [TrackedObject] widget_body) init_state.
Definition widget_state : state :=
  run (define_class "Widget" [TrackedObject] widget_body) init_state.

(** After [w = Widget(1)] *)
Definition widget_one : state :=
  run (TrackedType_call Widget (VInt 1) [] ∅) widget_state.


(** After [w.color = "blue"] *)
Definition widget_blue : state :=
  run (setattr 0 "color" (VStr "blue")) widget_one.

(** [class Flaky(TrackedObject)] with [_load] and [reload] *)
Definition flaky_body : gmap string member :=
  {[ "_load" := MFun flaky_load; "reload" := MFun flaky_reload ]}.
Definition Flaky : pyclass :=
  defined (define_class "Flaky" [TrackedObject] flaky_body) init_state.
Definition flaky_state : state :=
  run (define_class "Flaky" [TrackedObject] flaky_body) init_state.


(** ** Vocabulary of the statements *)

(** The instance has been given an id: [getattr(obj, "_id", None)] is not
    [None]. *)
Definition identified (obj : addr) (s : state) : Prop :=
  reads_None (attr_of obj "_id" s) = false.

#[global] Instance identified_dec obj s : Decision (identified obj s).
Proof. unfold identified. apply _. Defined.

(** The hook leaves the private attribute [_id] alone. *)
Definition keeps_id (h : hook) : Prop :=
  ∀ instance_id args kw d, (h instance_id args kw d).1 !! "_id" = d !! "_id".

Definition hooks_keep_id (cls : pyclass) : Prop :=
  ∀ name h, class_getattr cls name = Some (MFun h) → keeps_id h.

(** [cls.__new__] is [TrackedObject.__new__]: the class is derived from
    [TrackedObject], and construction goes through its registry. *)
Definition constructs_tracked (cls : pyclass) : Prop :=
  class_getattr cls "__new__" = Some (MNative fn_TrackedObject_new).


(** The [__init__] of the class is [TrackedObject.__init__], which
    [TrackedType.__new__] copies from the first base. *)
Definition initializes_tracked (cls : pyclass) : Prop :=
  class_getattr cls "__init__" = Some (MNative fn_TrackedObject_init).

(** No class body binds [_id]: the attribute is the one [__init__] assigns
    on the instance. *)
Definition unbound_id (cls : pyclass) : Prop :=
  class_getattr cls "_id" = None.

(** The classes whose instances are made and initialized by
    [TrackedObject]: [TrackedObject.__new__] constructs them,
    [TrackedObject.__init__] initializes them, and [_id] is theirs to
    assign. *)
Definition tracked (cls : pyclass) : Prop :=
  constructs_tracked cls ∧ initializes_tracked cls ∧ unbound_id cls.

(** The class leaves [_id] to [TrackedObject.__init__]: no body binds it
    and no hook assigns it. *)
Definition leaves_id (cls : pyclass) : Prop :=
  hooks_keep_id cls ∧ unbound_id cls.

(** No class body binds a name that [TrackedObject.__new__] looks up on the
    class: [cls.get], [cls.add] and [cls._instances] are those the metaclass
    provides. *)
Definition plain_registry (cls : pyclass) : Prop :=
  class_getattr cls "get" = None ∧ class_getattr cls "add" = None ∧
  class_getattr cls "_instances" = None.


(** The classes derived from [TrackedObject] by single inheritance, each
    created by [TrackedType.__new__]. *)
Inductive trackable : pyclass → Prop :=
| trackable_child nom dct s cls :
    value (TrackedType_new nom [TrackedObject] dct) s = Ok cls →
    trackable cls
| trackable_descendant nom parent dct s cls :
    trackable parent →
    value (TrackedType_new nom [parent] dct) s = Ok cls →
    trackable cls.

(** What [instance.reload] is once the class exists: the [reload] of the
    body, or its [_load]. *)
Definition reload_of (dct : gmap string member) : option member :=
  match dct !! "reload" with
  | Some m => Some m
  | None => dct !! "_load"
  end.

(** The effect of the type-specific pre-initialization on an instance of
    [cls] whose [__dict__] is [d], when there is one:
    [if callable(tracked_init): tracked_init(instance_id, ...)]. *)
Definition pre_init (cls : pyclass) : hook :=
  λ instance_id args kw d,
    match lookup_attr cls d "_tracked_init" with
    | Some (MFun h) => h instance_id args kw d
    | Some (MNative _) => (d, Some TypeError)
    | _ => (d, None)
    end.

Definition pre_init_events (cls : pyclass) (self : addr)
    (instance_id : pyval) (args : list pyval) (kw : attrs) (d : attrs)
    : list event :=
  match lookup_attr cls d "_tracked_init" with
  | Some (MFun h) => [Event "_tracked_init" self instance_id args kw]
  | _ => []
  end.


(** The states a program can be in: class statements, construction calls on
    classes that are [good], assignments to attributes other than the
    private [_id], and garbage collection. *)
Inductive step (good : pyclass → Prop) : state → state → Prop :=
| step_define nom bases dct s :
    step good s (run (define_class nom bases dct) s)
| step_call cls instance_id args kw s :
    good cls →
    step good s (run (TrackedType_call cls instance_id args kw) s)
| step_setattr a name v s :
    name ≠ "_id" →
    step good s (run (setattr a name v) s)
| step_collect a s :
    step good s (collect a s).

Definition reachable (good : pyclass → Prop) (s : state) : Prop :=
  rtc (step good) init_state s.

Definition any_class : pyclass → Prop := λ _, True.

(** Allocation invariant: addresses in use (in the heap, in a registry, in
    the trace) are below the counter, and an address is registered under one
    key of one class at most. *)
Record alloc_inv (s : state) : Prop := {
  heap_below a o :
    heap s !! a = Some o → a < next s;
  registry_below n reg K a :
    instances s !! n = Some reg → reg !! K = Some a → a < next s;
  registry_inj n reg K n' reg' K' a :
    instances s !! n = Some reg → reg !! K = Some a →
    instances s !! n' = Some reg' → reg' !! K' = Some a →
    n = n' ∧ K = K';
  log_below e :
    e ∈ log s → ev_self e < next s
}.

(** Identity invariant: a live instance registered under a key has that key
    as its [_id], or no [_id] yet. *)
Record id_inv (s : state) : Prop := {
  registered_id n reg K a o :
    instances s !! n = Some reg → reg !! K = Some a → heap s !! a = Some o →
    ob_dict o !! "_id" = None ∨ ob_dict o !! "_id" = Some K;
  live_keep_id a o :
    heap s !! a = Some o → hooks_keep_id (ob_type o)
}.

(** ** The part of a call that runs hooks on one object *)

(** The only traces such a part leaves: a new [__dict__] for [obj] and some
    events. *)
Definition touch (obj : addr) (d : attrs) (evs : list event) (s : state) : state :=
  set_log (log s ++ evs) (set_heap (alter (with_dict d) obj (heap s)) s).

(** What hooks can do to the [__dict__] of an object of class [cls]
    constructed with [instance_id, *args, **kw]. *)
Inductive hooked (cls : pyclass) (obj : addr) (X : pyval) (args : list pyval)
    (kw : attrs) : attrs → attrs → list event → Prop :=
| hooked_none d :
    hooked cls obj X args kw d d []
| hooked_call d d' evs name h :
    hooked cls obj X args kw d d' evs →
    class_getattr cls name = Some (MFun h) →
    hooked cls obj X args kw d (h X args kw d').1
      (evs ++ [Event name obj X args kw])
| hooked_set_id d d' evs :
    hooked cls obj X args kw d d' evs →
    is_None (default VNone (d' !! "_id")) = true →
    hooked cls obj X args kw d (<["_id" := X]> d') evs.

Definition hook_phase {A} (cls : pyclass) (obj : addr) (X : pyval)
    (args : list pyval) (kw : attrs) (m : M A) : Prop :=
  ∀ s o, heap s !! obj = Some o → ob_type o = cls →
    ∃ d evs, run m s = touch obj d evs s ∧
             hooked cls obj X args kw (ob_dict o) d evs.

(** ** The shape of a construction call *)

(** The state [TrackedObject.__new__] leaves when it had to allocate. *)
Definition allocated (cls : pyclass) (n : string) (reg : gmap pyval addr)
    (X : pyval) (s : state) : state :=
  State (mutex s) (<[n := <[X := next s]> reg]> (instances s))
        (<[next s := Object cls ∅]> (heap s)) (S (next s)) (log s).

(** The state [object.__new__] leaves: a new object, in no registry. *)
Definition born (cls : pyclass) (s : state) : state :=
  set_next (S (next s)) (set_heap (<[next s := Object cls ∅]> (heap s)) s).

(** The state once [clean] has dropped the entry of [X]. *)
Definition cleaned (n : string) (reg : gmap pyval addr) (X : pyval)
    (s : state) : state :=
  set_instances (<[n := delete X reg]> (instances s)) s.

(** What [TrackedType.__call__] does once it holds [obj]. *)
Definition finish (cls : pyclass) (X : pyval) (args : list pyval) (kw : attrs)
    (obj : addr) : M addr :=
  let* cur := getattr obj "_id" in
  (if reads_None cur
   then try_except (call_init obj X args kw)
          (λ e, TrackedType_clean cls X >> raise e)
   else ret ()) >>
  ret obj.

(** The dictionary [TrackedType.__new__] hands to [type.__new__] for a body
    [dct] that passed the checks, before [__init__] is replaced. *)
Definition body_dict (dct : gmap string member) : gmap string member :=
  let dct := if negb (has_key "reload" dct)
             then copy_key "_load" "reload" dct else dct in
  if has_key "__init__" dct
  then copy_key "__init__" "_tracked_init" dct else dct.

(** What [TrackedObject.__init__] does to the [__dict__] [d] of an object of
    class [cls] whose [_id] reads [None]: the new [__dict__], the exception
    raised if any, and the hooks invoked.  [_load] is looked up after the
    pre-initialization, on the [__dict__] that it left. *)
Definition initialize (cls : pyclass) (self : addr) (X : pyval)
    (args : list pyval) (kw : attrs) (d : attrs)
    : attrs * option exn * list event :=
  let pre := pre_init cls X args kw (<["_id" := X]> d) in
  let evs := pre_init_events cls self X args kw (<["_id" := X]> d) in
  match pre.2 with
  | Some e => (pre.1, Some e, evs)
  | None =>
      match lookup_attr cls pre.1 "_load" with
      | Some (MFun h) =>
          let r := h X args kw pre.1 in
          (r.1, r.2, evs ++ [Event "_load" self X args kw])
      | _ => (pre.1, Some TypeError, evs)
      end
  end.

Definition outcome (r : option exn) : result unit :=
  match r with None => Ok () | Some e => Raise e end.

(** ** More of the sample family *)


(** [class Dial(Widget)] with a [_load] of its own, defined after [Widget] *)
Definition dial_load : hook :=
  λ _ _ _ d, (<["color" := VStr "green"]> d, None).
Definition dial_body : gmap string member :=
  {[ "_load" := MFun dial_load ]}.
Definition Dial : pyclass :=
  defined (define_class "Dial" [Widget] dial_body) widget_state.
Definition dial_state : state :=
  run (define_class "Dial" [Widget] dial_body) widget_state.

(** [class Steady(Flaky)] with [_load] alone: [Flaky] has a [reload]. *)
Definition Steady : pyclass :=
  defined (define_class "Steady" [Flaky] widget_body) flaky_state.




(** [class Odd(TrackedObject)] with [_load] and [reload = 5], and the state
    after [o = Odd(1)] *)
Definition odd_body : gmap string member :=
  {[ "_load" := MFun widget_load; "reload" := MData (VInt 5) ]}.
Definition Odd : pyclass :=
  defined (define_class "Odd" [TrackedObject] odd_body) init_state.
Definition odd_one : state :=
  run (TrackedType_call Odd (VInt 1) [] ∅)
    (run (define_class "Odd" [TrackedObject] odd_body) init_state).



(** After [w = Widget(1)] and [w.reload = 5] *)
Definition widget_shadow : state :=
  run (setattr 0 "reload" (VInt 5)) widget_one.




(** * Proofs *)

(** ** The example of the specification, run *)

Example widget_first :
  TrackedType_call Widget (VInt 1) [] ∅ widget_state = (Ok 0, widget_one) ∧
  self_dict 0 widget_one = {[ "_id" := VInt 1; "color" := VStr "red" ]} ∧
  value (TrackedObject_id 0) widget_one = Ok (VInt 1).
Proof. repeat split; reflexivity. Qed.

Example widget_again :
  TrackedType_call Widget (VInt 1) [] ∅ widget_blue = (Ok 0, widget_blue) ∧
  self_dict 0 widget_blue !! "color" = Some (VStr "blue").
Proof. split; reflexivity. Qed.

Example widget_forced :
  value (TrackedType_call Widget (VInt 1) [] {[ "force_reload" := VInt 1 ]})
    widget_blue = Ok 0 ∧
  self_dict 0
    (run (TrackedType_call Widget (VInt 1) [] {[ "force_reload" := VInt 1 ]})
       widget_blue) = {[ "_id" := VInt 1; "color" := VStr "red" ]}.
Proof. split; reflexivity. Qed.

Example flaky_arguments :
  log (run (TrackedType_call Flaky (VInt 1) [VInt 7]
              {[ "ok" := VInt 1; "force_reload" := VInt 1 ]}) flaky_state) =
  [Event "_load" 0 (VInt 1) [VInt 7] {[ "ok" := VInt 1 ]}].
Proof. reflexivity. Qed.

(** A class statement that lists [object] among its bases is not a tracked
    class for the metaclass: no check, and no registry of its own. *)
Example object_in_bases_skips_the_checks :
  value (define_class "Loose" [Widget; PyObject] ∅) widget_state =
  Ok (PyClass "Loose" [Widget; PyObject] ∅).
Proof. reflexivity. Qed.

(** ** The monad *)

Lemma bind_ok {A B} (m : M A) (k : A → M B) s a s1 :
  m s = (Ok a, s1) → bind m k s = k a s1.
Proof. unfold bind. by intros ->. Qed.

Lemma bind_raise {A B} (m : M A) (k : A → M B) s e s1 :
  m s = (Raise e, s1) → bind m k s = (Raise e, s1).
Proof. unfold bind. by intros ->. Qed.

Lemma run_value {A} (m : M A) s : m s = (value m s, run m s).
Proof. unfold value, run. by destruct (m s). Qed.

(** ** The registry *)

Lemma get_live cls X s a :
  value (TrackedType_get cls X) s = Ok (Some a) ↔
  ∃ n reg, registry_name cls = Some n ∧ instances s !! n = Some reg ∧
           reg !! X = Some a ∧ is_Some (heap s !! a).
Proof.
  unfold value, TrackedType_get, bind, cls_instances, deref, ret.
  split.
  - destruct (registry_name cls) as [n|]; [|done].
    destruct (instances s !! n) as [reg|] eqn:Hreg; [|done].
    destruct (reg !! X) as [b|] eqn:HX; [|done]. simpl.
    destruct (heap s !! b) eqn:Hb; [|done].
    intros [= <-]. exists n, reg. by rewrite Hb.
  - intros (n & reg & -> & -> & -> & [o Ho]). simpl. by rewrite Ho.
Qed.

Lemma get_absent cls X s :
  value (TrackedType_get cls X) s = Ok None ↔
  ∃ n reg, registry_name cls = Some n ∧ instances s !! n = Some reg ∧
           (reg !! X = None ∨ ∃ a, reg !! X = Some a ∧ heap s !! a = None).
Proof.
  unfold value, TrackedType_get, bind, cls_instances, deref, ret.
  split.
  - destruct (registry_name cls) as [n|]; [|done].
    destruct (instances s !! n) as [reg|] eqn:Hreg; [|done].
    destruct (reg !! X) as [b|] eqn:HX; simpl.
    + destruct (heap s !! b) eqn:Hb; [done|].
      intros _. exists n, reg. naive_solver.
    + intros _. exists n, reg. naive_solver.
  - intros (n & reg & -> & -> & [-> | (a & -> & Ha)]); simpl; [done|].
    by rewrite Ha.
Qed.

(** ** The part of a call that runs hooks on one object *)

Lemma touch_same obj o s :
  heap s !! obj = Some o → touch obj (ob_dict o) [] s = s.
Proof.
  intros Ho. destruct s as [mu ins hp nx lg]. unfold touch, set_log, set_heap.
  simpl in *. f_equal; [|by rewrite app_nil_r].
  apply map_eq. intros b. rewrite lookup_alter.
  case_decide; [subst; rewrite Ho; by destruct o|done].
Qed.

Lemma touch_touch obj d1 e1 d2 e2 s :
  touch obj d2 e2 (touch obj d1 e1 s) = touch obj d2 (e1 ++ e2) s.
Proof.
  unfold touch, set_log, set_heap. simpl. f_equal; [|by rewrite app_assoc].
  apply map_eq. intros b. rewrite !lookup_alter.
  repeat case_decide; try done. by destruct (heap s !! obj).
Qed.

Lemma heap_touch obj d evs s b :
  heap (touch obj d evs s) !! b =
  if decide (obj = b) then with_dict d <$> heap s !! b else heap s !! b.
Proof. unfold touch. simpl. rewrite lookup_alter. by case_decide; subst. Qed.

Lemma heap_touch_eq obj d evs s o :
  heap s !! obj = Some o → heap (touch obj d evs s) !! obj = Some (with_dict d o).
Proof. intros Ho. rewrite heap_touch, decide_True by done. by rewrite Ho. Qed.

Lemma invoke_touch slot h self X args kw s :
  run (invoke slot h self X args kw) s =
  touch self (h X args kw (self_dict self s)).1 [Event slot self X args kw] s.
Proof. unfold run, invoke. simpl. by destruct (h X args kw (self_dict self s)).2. Qed.

Lemma setattr_touch self name v s o :
  heap s !! self = Some o →
  setattr self name v s = (Ok (), touch self (<[name := v]> (ob_dict o)) [] s).
Proof.
  intros Ho. unfold setattr, touch, set_log, set_heap. simpl. do 2 f_equal.
  - apply map_eq. intros b. rewrite !lookup_alter.
    case_decide; [|done]. by rewrite Ho.
  - by rewrite app_nil_r.
Qed.

Lemma self_dict_eq self s o : heap s !! self = Some o → self_dict self s = ob_dict o.
Proof. unfold self_dict. by intros ->. Qed.

Lemma attr_of_eq obj name s o :
  heap s !! obj = Some o →
  attr_of obj name s = lookup_attr (ob_type o) (ob_dict o) name.
Proof. unfold attr_of. by intros ->. Qed.

Lemma getattr_eq obj name s o :
  heap s !! obj = Some o →
  getattr obj name s = (Ok (lookup_attr (ob_type o) (ob_dict o) name), s).
Proof. intros Ho. unfold getattr. by rewrite (attr_of_eq _ _ _ _ Ho). Qed.

Lemma hooked_trans cls obj X args kw d1 d2 d3 e1 e2 :
  hooked cls obj X args kw d1 d2 e1 →
  hooked cls obj X args kw d2 d3 e2 →
  hooked cls obj X args kw d1 d3 (e1 ++ e2).
Proof.
  intros H1 H2. induction H2.
  - by rewrite app_nil_r.
  - rewrite app_assoc. eapply hooked_call; [by apply IHhooked|done].
  - apply hooked_set_id; [by apply IHhooked|done].
Qed.

Section hook_phase.
Context (cls : pyclass) (obj : addr) (X : pyval) (args : list pyval) (kw : attrs).

#[local] Abbreviation phase := (hook_phase cls obj X args kw).

Lemma hook_phase_pure {A} (m : M A) :
  (∀ s, run m s = s) → phase m.
Proof.
  intros Hm s o Ho _. exists (ob_dict o), []. split; [|constructor].
  by rewrite Hm, touch_same.
Qed.

Lemma hook_phase_ret {A} (a : A) :
  phase (ret a).
Proof. by apply hook_phase_pure. Qed.

Lemma hook_phase_raise {A} e :
  phase (@raise A e).
Proof. by apply hook_phase_pure. Qed.

Lemma hook_phase_bind {A B} (m : M A) (k : A → M B) :
  phase m →
  (∀ a, phase (k a)) →
  phase (bind m k).
Proof.
  intros Hm Hk s o Ho Hty. destruct (Hm s o Ho Hty) as (d1 & e1 & Hrun & H1).
  unfold run in *. unfold bind.
  destruct (m s) as [[a|e] s1]; simpl in *; subst s1; [|by eauto].
  destruct (Hk a (touch obj d1 e1 s) (with_dict d1 o)) as (d2 & e2 & Hrun2 & H2);
    [by apply heap_touch_eq|done|].
  exists d2, (e1 ++ e2). unfold run in Hrun2. rewrite Hrun2, touch_touch.
  split; [done|]. by eapply hooked_trans.
Qed.

(** An attribute of the instance is a value of its [__dict__] or what its
    class has. *)
Lemma hook_phase_getattr {B} name (k : option member → M B) :
  (∀ v, phase (k (Some (MData v)))) →
  phase (k (class_getattr cls name)) →
  phase (bind (getattr obj name) k).
Proof.
  intros Hv Hk s o Ho Hty. unfold run, bind, getattr, attr_of, lookup_attr.
  rewrite Ho, Hty. destruct (ob_dict o !! name); [by apply Hv|by apply Hk].
Qed.

Lemma hook_phase_call_member name m :
  (∀ h, m = Some (MFun h) → class_getattr cls name = Some (MFun h)) →
  phase (call_member name m obj X args kw).
Proof.
  intros Hm. unfold call_member. destruct m as [[v|h|f]|];
    try apply hook_phase_raise.
  intros s o Ho Hty. rewrite invoke_touch, (self_dict_eq _ _ _ Ho).
  eexists _, _. split; [done|].
  change [Event name obj X args kw] with ([] ++ [Event name obj X args kw]).
  eapply hooked_call; [constructor|by apply Hm].
Qed.

Lemma hook_phase_call_method name :
  phase (call_method obj name X args kw).
Proof.
  unfold call_method. apply hook_phase_getattr.
  - intros v. by apply hook_phase_call_member.
  - destruct (class_getattr cls name) eqn:Hc; [|apply hook_phase_raise].
    apply hook_phase_call_member. by intros h [= ->].
Qed.

Lemma reads_None_dict c (d : attrs) :
  reads_None (lookup_attr c d "_id") = true →
  is_None (default VNone (d !! "_id")) = true.
Proof. unfold lookup_attr. by destruct (d !! "_id"). Qed.

Lemma hook_phase_TrackedObject_init :
  phase (TrackedObject_init obj X args kw).
Proof.
  intros s o Ho Hty. unfold TrackedObject_init, run, bind at 1.
  rewrite (getattr_eq _ _ _ _ Ho).
  destruct (reads_None (lookup_attr (ob_type o) (ob_dict o) "_id")) eqn:Hid; simpl.
  2:{ exists (ob_dict o), []. split; [by rewrite touch_same|constructor]. }
  apply reads_None_dict in Hid.
  unfold bind at 1. rewrite (setattr_touch _ _ _ _ _ Ho).
  set (d0 := <["_id" := X]> (ob_dict o)).
  assert (∀ name, phase
    (let* m := getattr obj name in
     call_member name m obj X args kw)) as Hcall.
  { intros name. apply hook_phase_getattr.
    - intros v. by apply hook_phase_call_member.
    - apply hook_phase_call_member. by intros h ->. }
  assert (phase
    (let* tracked_init := getattr obj "_tracked_init" in
     (if callable tracked_init
      then call_member "_tracked_init" tracked_init obj X args kw
      else ret ()) >>
     let* _load := getattr obj "_load" in
     call_member "_load" _load obj X args kw)) as Hrest.
  { apply hook_phase_getattr.
    - intros v. apply hook_phase_bind; [apply hook_phase_ret|]. intros _. apply Hcall.
    - apply hook_phase_bind; [|intros _; apply Hcall].
      destruct (callable _); [|apply hook_phase_ret].
      apply hook_phase_call_member. by intros h ->. }
  destruct (Hrest (touch obj d0 [] s) (with_dict d0 o)) as (d & evs & Hrun & Hh);
    [by apply heap_touch_eq|done|].
  exists d, evs. unfold run in Hrun. rewrite Hrun, touch_touch. split; [done|].
  change evs with ([] ++ evs). eapply hooked_trans; [|exact Hh].
  apply hooked_set_id; [constructor|done].
Qed.

Lemma hook_phase_object_init :
  phase (object_init obj).
Proof.
  apply hook_phase_pure. intros s. unfold run, object_init.
  destruct (heap s !! obj) as [o|]; [|done].
  by destruct (class_getattr (ob_type o) "__new__") as [[v|h|[]]|].
Qed.

Lemma hook_phase_call_init :
  phase (call_init obj X args kw).
Proof.
  unfold call_init. apply hook_phase_getattr.
  - intros v. by apply hook_phase_call_member.
  - destruct (class_getattr cls "__init__") as [[v|h|[]]|] eqn:Hc;
      first [apply hook_phase_TrackedObject_init | apply hook_phase_object_init
            | apply hook_phase_raise | idtac];
      apply hook_phase_call_member; by intros h' [= ->].
Qed.

End hook_phase.

(** ** [TrackedObject.__new__] *)

Lemma get_set_mutex cls X n s :
  TrackedType_get cls X (set_mutex n s) =
  (value (TrackedType_get cls X) s, set_mutex n s).
Proof.
  unfold value, TrackedType_get, bind, cls_instances, deref, ret. simpl.
  destruct (registry_name cls) as [m|]; [|done].
  destruct (instances s !! m) as [reg|]; [|done].
  by destruct (reg !! X).
Qed.

Lemma release_after_lock s :
  release_tracker (set_mutex (S (mutex s)) s) = (Ok (), s).
Proof. unfold release_tracker. simpl. by destruct s. Qed.

Lemma new_live cls X args kw s a :
  value (TrackedType_get cls X) s = Ok (Some a) →
  TrackedObject_new cls X args kw s =
  ((if truthy (force_reload kw)
    then call_method a "reload" X args (delete "force_reload" kw)
    else ret ()) >> ret a) s.
Proof.
  intros Hget. unfold TrackedObject_new.
  unfold bind at 1, lock_tracker.
  pose proof (get_set_mutex cls X (S (mutex s)) s) as Hg. rewrite Hget in Hg.
  rewrite (bind_ok _ _ _ _ _ Hg).
  by rewrite (bind_ok _ _ _ _ _ (release_after_lock s)).
Qed.

Lemma new_absent cls X args kw s n reg :
  value (TrackedType_get cls X) s = Ok None →
  registry_name cls = Some n →
  instances s !! n = Some reg →
  TrackedObject_new cls X args kw s = (Ok (next s), allocated cls n reg X s).
Proof.
  intros Hget Hn Hreg. unfold TrackedObject_new.
  unfold bind at 1, lock_tracker.
  pose proof (get_set_mutex cls X (S (mutex s)) s) as Hg. rewrite Hget in Hg.
  rewrite (bind_ok _ _ _ _ _ Hg).
  unfold object_new, TrackedType_add, cls_instances, store_instances,
    release_tracker, ret, bind. simpl.
  rewrite Hn. simpl. by rewrite Hreg.
Qed.

Lemma new_raise cls X args kw s e :
  value (TrackedType_get cls X) s = Raise e →
  TrackedObject_new cls X args kw s = (Raise e, set_mutex (S (mutex s)) s).
Proof.
  intros Hget. unfold TrackedObject_new.
  unfold bind at 1, lock_tracker.
  pose proof (get_set_mutex cls X (S (mutex s)) s) as Hg. rewrite Hget in Hg.
  by rewrite (bind_raise _ _ _ _ _ Hg).
Qed.

(** ** [TrackedType.__call__] *)

Lemma kw_strip (kw : attrs) :
  (if has_key "force_reload" kw then delete "force_reload" kw else kw) =
  delete "force_reload" kw.
Proof.
  unfold has_key. destruct (kw !! "force_reload") eqn:H; [done|].
  by rewrite delete_id.
Qed.

Lemma call_dispatch cls X args kw s :
  TrackedType_call cls X args kw s =
  bind (cls_new cls X args kw)
       (finish cls X args (delete "force_reload" kw)) s.
Proof. unfold TrackedType_call, finish. by rewrite kw_strip. Qed.

Lemma cls_new_tracked cls X args kw :
  constructs_tracked cls →
  cls_new cls X args kw = TrackedObject_new cls X args kw.
Proof. unfold constructs_tracked, cls_new. by intros ->. Qed.

(** What [cls.__new__] is for a class that does not construct through
    [TrackedObject.__new__]: a plain allocation or a [TypeError]. *)
Lemma cls_new_untracked cls X args kw s :
  ¬ constructs_tracked cls →
  cls_new cls X args kw s = (Ok (next s), born cls s) ∨
  cls_new cls X args kw s = (Raise TypeError, s).
Proof.
  unfold constructs_tracked, cls_new. intros Hc.
  destruct (class_getattr cls "__new__") as [[v|h|[]]|]; try by right.
  destruct (class_getattr cls "__init__") as [[v|h|[]]|];
    first [by left|by right].
Qed.

Lemma call_finish cls X args kw s :
  constructs_tracked cls →
  TrackedType_call cls X args kw s =
  bind (TrackedObject_new cls X args kw)
       (finish cls X args (delete "force_reload" kw)) s.
Proof. intros Hc. by rewrite call_dispatch, (cls_new_tracked _ _ _ _ Hc). Qed.

Lemma finish_identified cls X args kw obj s :
  identified obj s → finish cls X args kw obj s = (Ok obj, s).
Proof.
  unfold identified, finish, bind, getattr. by intros ->.
Qed.

Lemma clean_present cls X s n reg a :
  registry_name cls = Some n →
  instances s !! n = Some reg →
  reg !! X = Some a →
  TrackedType_clean cls X s = (Ok (), cleaned n reg X s).
Proof.
  intros Hn Hreg HX.
  unfold TrackedType_clean, cls_instances, store_instances, bind.
  rewrite Hn, Hreg. simpl. by rewrite HX.
Qed.

Lemma finish_unidentified cls X args kw obj s :
  ¬ identified obj s →
  finish cls X args kw obj s =
  match call_init obj X args kw s with
  | (Ok _, s1) => (Ok obj, s1)
  | (Raise e, s1) =>
      match TrackedType_clean cls X s1 with
      | (Ok _, s2) => (Raise e, s2)
      | (Raise e', s2) => (Raise e', s2)
      end
  end.
Proof.
  unfold identified, finish, bind, getattr, try_except, raise, ret.
  intros Hid. destruct (reads_None _); [|done].
  destruct (call_init obj X args kw s) as [[[]|e] s1]; [done|].
  by destruct (TrackedType_clean cls X s1) as [[[]|e'] s2].
Qed.

Lemma finish_shape cls X args kw obj s o n reg :
  heap s !! obj = Some o →
  registry_name cls = Some n →
  instances s !! n = Some reg →
  reg !! X = Some obj →
  ∃ d evs, hooked (ob_type o) obj X args kw (ob_dict o) d evs ∧
    (finish cls X args kw obj s = (Ok obj, touch obj d evs s) ∨
     ∃ e, finish cls X args kw obj s =
          (Raise e, cleaned n reg X (touch obj d evs s))).
Proof.
  intros Ho Hn Hreg HX.
  destruct (decide (identified obj s)) as [Hid|Hid].
  - exists (ob_dict o), []. split; [constructor|]. left.
    by rewrite finish_identified, touch_same.
  - rewrite (finish_unidentified _ _ _ _ _ _ Hid).
    destruct (hook_phase_call_init (ob_type o) obj X args kw s o Ho eq_refl)
      as (d & evs & Hrun & Hh).
    exists d, evs. split; [done|].
    rewrite (run_value (call_init _ _ _ _) s), Hrun.
    destruct (value _ s) as [[]|e]; [by left|right]. exists e.
    by rewrite (clean_present cls X (touch obj d evs s) n reg obj Hn Hreg HX).
Qed.

Lemma reload_phase a X args kw s o :
  heap s !! a = Some o →
  ∃ d evs r, hooked (ob_type o) a X args (delete "force_reload" kw) (ob_dict o) d evs ∧
    (if truthy (force_reload kw)
     then call_method a "reload" X args (delete "force_reload" kw)
     else ret ()) s = (r, touch a d evs s).
Proof.
  intros Ho.
  assert (hook_phase (ob_type o) a X args (delete "force_reload" kw)
    (if truthy (force_reload kw)
     then call_method a "reload" X args (delete "force_reload" kw)
     else ret ())) as Hp.
  { destruct (truthy _); [apply hook_phase_call_method|apply hook_phase_ret]. }
  destruct (Hp s o Ho eq_refl) as (d & evs & Hrun & Hh).
  exists d, evs. eexists. split; [done|]. rewrite <- Hrun. apply run_value.
Qed.

(** Every construction call through [TrackedObject.__new__] is of one of
    these kinds. *)
Lemma call_shape cls X args kw s :
  constructs_tracked cls →
  match value (TrackedType_get cls X) s with
  | Raise e =>
      TrackedType_call cls X args kw s = (Raise e, set_mutex (S (mutex s)) s)
  | Ok (Some a) =>
      ∃ o n reg d evs,
        heap s !! a = Some o ∧ registry_name cls = Some n ∧
        instances s !! n = Some reg ∧ reg !! X = Some a ∧
        hooked (ob_type o) a X args (delete "force_reload" kw) (ob_dict o) d evs ∧
        (TrackedType_call cls X args kw s = (Ok a, touch a d evs s) ∨
         ∃ e, TrackedType_call cls X args kw s = (Raise e, touch a d evs s) ∨
              TrackedType_call cls X args kw s =
              (Raise e, cleaned n reg X (touch a d evs s)))
  | Ok None =>
      ∃ n reg d evs,
        registry_name cls = Some n ∧ instances s !! n = Some reg ∧
        hooked cls (next s) X args (delete "force_reload" kw) ∅ d evs ∧
        (TrackedType_call cls X args kw s =
         (Ok (next s), touch (next s) d evs (allocated cls n reg X s)) ∨
         ∃ e, TrackedType_call cls X args kw s =
              (Raise e, cleaned n (<[X := next s]> reg) X
                          (touch (next s) d evs (allocated cls n reg X s))))
  end.
Proof.
  intros Hc.
  destruct (value (TrackedType_get cls X) s) as [[a|]|e] eqn:Hget.
  - pose proof Hget as (n & reg & Hn & Hreg & HX & [o Ho])%get_live.
    exists o, n, reg.
    destruct (reload_phase a X args kw s o Ho) as (d1 & e1 & r & H1 & Hre).
    assert (TrackedType_call cls X args kw s =
            match r with
            | Ok _ => finish cls X args (delete "force_reload" kw) a (touch a d1 e1 s)
            | Raise e => (Raise e, touch a d1 e1 s)
            end) as ->.
    { rewrite call_finish by done. unfold bind at 1.
      rewrite (new_live _ _ _ _ _ _ Hget).
      unfold bind at 1. rewrite Hre. by destruct r. }
    destruct r as [[]|e].
    + destruct (finish_shape cls X args (delete "force_reload" kw) a
                  (touch a d1 e1 s) (with_dict d1 o) n reg)
        as (d2 & e2 & H2 & Hfin); [by apply heap_touch_eq|done..|].
      exists d2, (e1 ++ e2). rewrite touch_touch in Hfin.
      split_and!; [done..|by eapply hooked_trans|].
      destruct Hfin as [->|[e ->]]; [by left|right]. exists e. by right.
    + exists d1, e1. split_and!; [done..|]. right. exists e. by left.
  - pose proof Hget as (n & reg & Hn & Hreg & _)%get_absent.
    exists n, reg.
    assert (TrackedType_call cls X args kw s =
            finish cls X args (delete "force_reload" kw) (next s)
              (allocated cls n reg X s)) as ->.
    { rewrite call_finish by done. unfold bind at 1.
      by rewrite (new_absent _ _ _ _ _ _ _ Hget Hn Hreg). }
    destruct (finish_shape cls X args (delete "force_reload" kw) (next s)
                (allocated cls n reg X s) (Object cls ∅) n (<[X := next s]> reg))
      as (d & evs & Hh & Hfin); simpl;
      [by rewrite lookup_insert_eq|done|by rewrite lookup_insert_eq..|].
    exists d, evs. split_and!; [done..|].
    destruct Hfin as [->|[e ->]]; [by left|right; by exists e].
  - rewrite call_finish by done. unfold bind.
    by rewrite (new_raise _ _ _ _ _ _ Hget).
Qed.

(** What [finish] does to an object that is in no registry, or not under
    [X]: when the initialization raises, [clean] finds no entry of its own
    to remove. *)
Lemma finish_phase cls X args kw obj s o :
  heap s !! obj = Some o →
  ∃ d evs, hooked (ob_type o) obj X args kw (ob_dict o) d evs ∧
    (finish cls X args kw obj s = (Ok obj, touch obj d evs s) ∨
     ∃ e, finish cls X args kw obj s = (Raise e, touch obj d evs s) ∨
          ∃ n reg, registry_name cls = Some n ∧
                   instances s !! n = Some reg ∧ is_Some (reg !! X) ∧
                   finish cls X args kw obj s =
                   (Raise e, cleaned n reg X (touch obj d evs s))).
Proof.
  intros Ho.
  destruct (decide (identified obj s)) as [Hid|Hid].
  - exists (ob_dict o), []. split; [constructor|]. left.
    by rewrite finish_identified, touch_same.
  - rewrite (finish_unidentified _ _ _ _ _ _ Hid).
    destruct (hook_phase_call_init (ob_type o) obj X args kw s o Ho eq_refl)
      as (d & evs & Hrun & Hh).
    exists d, evs. split; [done|].
    rewrite (run_value (call_init _ _ _ _) s), Hrun.
    destruct (value _ s) as [[]|e]; [by left|right].
    unfold TrackedType_clean, cls_instances, store_instances, bind, raise.
    destruct (registry_name cls) as [n|] eqn:Hn; [|eexists; by left].
    simpl. destruct (instances s !! n) as [reg|] eqn:Hreg; [|eexists; by left].
    destruct (reg !! X) as [b|] eqn:HX; [|eexists; by left].
    exists e. right. exists n, reg. split_and!; [done..|by eexists|done].
Qed.

(** Every construction call on another class allocates an object that no
    registry holds and initializes it, or raises [TypeError] at once. *)
Lemma call_shape_untracked cls X args kw s :
  ¬ constructs_tracked cls →
  TrackedType_call cls X args kw s = (Raise TypeError, s) ∨
  ∃ d evs,
    hooked cls (next s) X args (delete "force_reload" kw) ∅ d evs ∧
    (TrackedType_call cls X args kw s =
     (Ok (next s), touch (next s) d evs (born cls s)) ∨
     ∃ e, TrackedType_call cls X args kw s =
          (Raise e, touch (next s) d evs (born cls s)) ∨
          ∃ n reg, registry_name cls = Some n ∧
                   instances s !! n = Some reg ∧ is_Some (reg !! X) ∧
                   TrackedType_call cls X args kw s =
                   (Raise e, cleaned n reg X (touch (next s) d evs (born cls s)))).
Proof.
  intros Hc.
  destruct (cls_new_untracked cls X args kw s Hc) as [Hn|Hn].
  2:{ left. by rewrite call_dispatch, (bind_raise _ _ _ _ _ Hn). }
  right.
  assert (TrackedType_call cls X args kw s =
          finish cls X args (delete "force_reload" kw) (next s) (born cls s)) as ->
    by (by rewrite call_dispatch, (bind_ok _ _ _ _ _ Hn)).
  destruct (finish_phase cls X args (delete "force_reload" kw) (next s)
              (born cls s) (Object cls ∅)) as (d & evs & Hh & Hfin).
  { simpl. by rewrite lookup_insert_eq. }
  exists d, evs. split; [done|].
  destruct Hfin as [->|[e [->|(n & reg & Hn' & Hreg & HX & ->)]]]; [by left|..].
  - right. exists e. by left.
  - right. exists e. right. by exists n, reg.
Qed.

(** ** Class definition *)

Lemma has_key_true {V} k (dct : gmap string V) : has_key k dct = true ↔ is_Some (dct !! k).
Proof.
  unfold has_key. destruct (dct !! k); split; [by eauto|done|done|by intros [? ?]].
Qed.

Lemma has_key_false {V} k (dct : gmap string V) : has_key k dct = false ↔ dct !! k = None.
Proof. unfold has_key. by destruct (dct !! k). Qed.

Lemma new_class_untracked nom bases dct s :
  object_in bases = true →
  TrackedType_new nom bases dct s = (Ok (PyClass nom bases dct), set_mutex 0 s).
Proof. intros H. unfold TrackedType_new, bind, new_mutex. by rewrite H. Qed.

Lemma new_class_tracked nom bases dct s :
  object_in bases = false →
  TrackedType_new nom bases dct s =
  (if negb (has_key "_load" dct) then Raise (Exception_ msg_load)
   else if has_key "__new__" dct then Raise (Exception_ msg_new)
   else if has_key "id" dct then Raise (Exception_ msg_id)
   else match bases with
        | [] => Raise IndexError
        | base0 :: _ =>
            match class_getattr base0 "__init__" with
            | None => Raise (AttributeError "__init__")
            | Some init =>
                Ok (PyClass nom bases (<["__init__" := init]> (body_dict dct)))
            end
        end,
   set_mutex 0 s).
Proof.
  intros H. unfold TrackedType_new, bind, new_mutex, body_dict, raise, ret.
  rewrite H. simpl.
  destruct (has_key "_load" dct); [|done].
  destruct (has_key "__new__" dct); [done|].
  destruct (has_key "id" dct); [done|]. simpl.
  destruct bases as [|base0 rest]; [done|].
  by destruct (class_getattr base0 "__init__").
Qed.

Ltac body_dict_lookup :=
  unfold body_dict, copy_key, has_key, reload_of; simpl;
  repeat case_match; simplify_map_eq; try done.

Lemma body_dict_load dct : body_dict dct !! "_load" = dct !! "_load".
Proof. body_dict_lookup. Qed.

Lemma body_dict_reload dct : body_dict dct !! "reload" = reload_of dct.
Proof. body_dict_lookup. Qed.

Lemma body_dict_tracked_init dct :
  body_dict dct !! "_tracked_init" =
  match dct !! "__init__" with
  | Some m => Some m
  | None => dct !! "_tracked_init"
  end.
Proof. body_dict_lookup. Qed.

Lemma class_getattr_own nom bases dct name m :
  dct !! name = Some m → class_getattr (PyClass nom bases dct) name = Some m.
Proof. intros H. unfold class_getattr. simpl. by rewrite H. Qed.

(** A class of the family is what [TrackedType.__new__] made of a body that
    binds [_load] and neither [__new__] nor [id]; its [__init__] is
    [TrackedObject.__init__]. *)
Lemma trackable_inv cls :
  trackable cls →
  ∃ nom parent dct,
    cls = PyClass nom [parent]
            (<["__init__" := MNative fn_TrackedObject_init]> (body_dict dct)) ∧
    is_object parent = false ∧
    is_Some (dct !! "_load") ∧ dct !! "__new__" = None ∧ dct !! "id" = None.
Proof.
  assert (∀ nom parent dct s c,
    is_object parent = false →
    class_getattr parent "__init__" = Some (MNative fn_TrackedObject_init) →
    value (TrackedType_new nom [parent] dct) s = Ok c →
    c = PyClass nom [parent]
          (<["__init__" := MNative fn_TrackedObject_init]> (body_dict dct)) ∧
    is_object parent = false ∧
    is_Some (dct !! "_load") ∧ dct !! "__new__" = None ∧ dct !! "id" = None) as Hone.
  { intros nom parent dct s c Hob Hinit. unfold value.
    rewrite new_class_tracked by (simpl; by rewrite Hob). simpl.
    destruct (has_key "_load" dct) eqn:Hl; [|done].
    destruct (has_key "__new__" dct) eqn:Hn; [done|].
    destruct (has_key "id" dct) eqn:Hi; [done|]. simpl.
    rewrite Hinit. intros [= <-].
    by rewrite <- has_key_true, <- !has_key_false. }
  intros H. induction H as [nom dct s c Hnew|nom parent dct s c Hp IH Hnew].
  - exists nom, TrackedObject, dct. by eapply Hone.
  - exists nom, parent, dct. destruct IH as (n' & p' & d' & -> & _).
    eapply Hone; [done| |done].
    apply class_getattr_own. by rewrite lookup_insert_eq.
Qed.

Lemma trackable_init cls :
  trackable cls →
  class_getattr cls "__init__" = Some (MNative fn_TrackedObject_init).
Proof.
  intros (nom & parent & dct & -> & _)%trackable_inv.
  apply class_getattr_own. by rewrite lookup_insert_eq.
Qed.

Lemma trackable_registry cls :
  trackable cls → is_Some (registry_name cls).
Proof.
  intros (nom & parent & dct & -> & Hob & _)%trackable_inv. simpl.
  by rewrite Hob.
Qed.

Lemma trackable_load cls :
  trackable cls → is_Some (class_getattr cls "_load").
Proof.
  intros (nom & parent & dct & -> & _ & [m Hm] & _)%trackable_inv.
  exists m. apply class_getattr_own.
  by rewrite lookup_insert_ne, body_dict_load.
Qed.

(** ** Exact runs *)

Lemma call_method_fun a name X args kw s o h :
  heap s !! a = Some o →
  lookup_attr (ob_type o) (ob_dict o) name = Some (MFun h) →
  call_method a name X args kw s =
  (outcome (h X args kw (ob_dict o)).2,
   touch a (h X args kw (ob_dict o)).1 [Event name a X args kw] s).
Proof.
  intros Ho Hh. unfold call_method, bind. rewrite (getattr_eq _ _ _ _ Ho), Hh.
  unfold call_member, invoke. rewrite (self_dict_eq _ _ _ Ho).
  by destruct (h X args kw (ob_dict o)).2.
Qed.

(** A value, of the instance or of the class, cannot be called. *)
Lemma call_method_data a name X args kw s o v :
  heap s !! a = Some o →
  lookup_attr (ob_type o) (ob_dict o) name = Some (MData v) →
  call_method a name X args kw s = (Raise TypeError, s).
Proof.
  intros Ho Hv. unfold call_method, bind. by rewrite (getattr_eq _ _ _ _ Ho), Hv.
Qed.

Lemma invoke_eq slot h self X args kw s o :
  heap s !! self = Some o →
  invoke slot h self X args kw s =
  (outcome (h X args kw (ob_dict o)).2,
   touch self (h X args kw (ob_dict o)).1 [Event slot self X args kw] s).
Proof.
  intros Ho. unfold invoke. rewrite (self_dict_eq _ _ _ Ho).
  by destruct (h X args kw (ob_dict o)).2.
Qed.

Lemma TrackedObject_init_exact self X args kw s o :
  heap s !! self = Some o →
  ¬ identified self s →
  TrackedObject_init self X args kw s =
  (outcome (initialize (ob_type o) self X args kw (ob_dict o)).1.2,
   touch self (initialize (ob_type o) self X args kw (ob_dict o)).1.1
     (initialize (ob_type o) self X args kw (ob_dict o)).2 s).
Proof.
  intros Ho Hid. unfold identified in Hid.
  rewrite (attr_of_eq _ _ _ _ Ho) in Hid. apply not_false_is_true in Hid.
  unfold TrackedObject_init, bind at 1. rewrite (getattr_eq _ _ _ _ Ho), Hid.
  simpl. unfold bind at 1. rewrite (setattr_touch _ _ _ _ _ Ho).
  set (d0 := <["_id" := X]> (ob_dict o)). set (s0 := touch self d0 [] s).
  assert (heap s0 !! self = Some (with_dict d0 o)) as Ho0 by by apply heap_touch_eq.
  unfold bind at 1. rewrite (getattr_eq _ _ _ _ Ho0). simpl.
  unfold initialize, pre_init, pre_init_events. fold d0.
  assert (∀ d1 e1, let s1 := touch self d1 e1 s in
    (let* _load := getattr self "_load" in
     call_member "_load" _load self X args kw) s1 =
    match lookup_attr (ob_type o) d1 "_load" with
    | Some (MFun h) =>
        (outcome (h X args kw d1).2,
         touch self (h X args kw d1).1 (e1 ++ [Event "_load" self X args kw]) s)
    | _ => (Raise TypeError, s1)
    end) as Hload.
  { intros d1 e1 s1.
    assert (heap s1 !! self = Some (with_dict d1 o)) as Ho1 by by apply heap_touch_eq.
    unfold bind. rewrite (getattr_eq _ _ _ _ Ho1). simpl.
    destruct (lookup_attr (ob_type o) d1 "_load") as [[v'|h|f]|]; try done.
    simpl. rewrite (invoke_eq _ _ _ _ _ _ _ _ Ho1). simpl. unfold s1.
    by rewrite touch_touch. }
  destruct (lookup_attr (ob_type o) d0 "_tracked_init") as [[v|ti|f]|] eqn:Hti; simpl.
  - unfold bind at 1, ret at 1. unfold s0. rewrite Hload.
    by destruct (lookup_attr (ob_type o) d0 "_load") as [[v'|h|f]|].
  - unfold bind at 1. rewrite (invoke_eq _ _ _ _ _ _ _ _ Ho0). simpl.
    unfold s0. rewrite touch_touch. simpl.
    destruct (ti X args kw d0) as [d1 [e|]] eqn:Hr; simpl; [done|].
    rewrite Hload.
    by destruct (lookup_attr (ob_type o) d1 "_load") as [[v'|h|f]|].
  - unfold bind at 1, raise at 1. by unfold s0.
  - unfold bind at 1, ret at 1. unfold s0. rewrite Hload.
    by destruct (lookup_attr (ob_type o) d0 "_load") as [[v'|h|f]|].
Qed.

(** ** Invariants of the reachable states *)

Lemma hooked_events cls obj X args kw d d' evs :
  hooked cls obj X args kw d d' evs →
  Forall (λ e, ev_self e = obj ∧ ev_id e = X ∧ ev_args e = args ∧ ev_kw e = kw) evs.
Proof.
  induction 1; [constructor| |done].
  apply Forall_app. split; [done|]. by repeat constructor.
Qed.

Lemma hooked_id cls obj X args kw d d' evs :
  hooks_keep_id cls →
  hooked cls obj X args kw d d' evs →
  d' !! "_id" = d !! "_id" ∨ d' !! "_id" = Some X.
Proof.
  intros Hk. induction 1 as [|d d' evs name h Hh IH Hm|d d' evs Hh IH Hn].
  - by left.
  - by rewrite (Hk name h Hm).
  - right. by rewrite lookup_insert_eq.
Qed.

Lemma alloc_inv_init : alloc_inv init_state.
Proof.
  split; simpl; intros *; rewrite ?lookup_empty; try done.
  by intros ?%elem_of_nil.
Qed.

Lemma id_inv_init : id_inv init_state.
Proof. split; simpl; intros *; by rewrite lookup_empty. Qed.

Lemma alloc_inv_set_mutex k s : alloc_inv s → alloc_inv (set_mutex k s).
Proof. intros [HA HB HD HL]. by split. Qed.

Lemma id_inv_set_mutex k s : id_inv s → id_inv (set_mutex k s).
Proof. intros [HC HE]. by split. Qed.

Lemma alloc_inv_touch a d evs s o :
  heap s !! a = Some o →
  Forall (λ e, ev_self e = a) evs →
  alloc_inv s → alloc_inv (touch a d evs s).
Proof.
  intros Ho Hevs [HA HB HD HL]. split; simpl; [|done..|].
  - intros b o'. rewrite lookup_alter. case_decide; [subst|by eauto].
    intros _. by eauto.
  - intros e [He|He]%elem_of_app; [by eauto|].
    rewrite Forall_forall in Hevs. rewrite (Hevs e He). by eauto.
Qed.

Lemma hooked_self cls obj X args kw d d' evs :
  hooked cls obj X args kw d d' evs → Forall (λ e, ev_self e = obj) evs.
Proof.
  intros H%hooked_events. eapply Forall_impl; [done|]. by intros e [? _].
Qed.

Lemma alloc_inv_collect a s : alloc_inv s → alloc_inv (collect a s).
Proof.
  intros [HA HB HD HL]. split; simpl; [|done..].
  intros b o [_ Hb]%lookup_delete_Some. by eauto.
Qed.

Lemma id_inv_collect a s : id_inv s → id_inv (collect a s).
Proof.
  intros [HC HE]. split; simpl.
  - intros n reg K b o Hn HK [_ Hb]%lookup_delete_Some. by eauto.
  - intros b o [_ Hb]%lookup_delete_Some. by eauto.
Qed.

(** Entries only removed from a registry. *)
Lemma alloc_inv_shrink n reg' s :
  (∀ reg, instances s !! n = Some reg → reg' ⊆ reg) →
  (instances s !! n = None → reg' = ∅) →
  alloc_inv s → alloc_inv (set_instances (<[n := reg']> (instances s)) s).
Proof.
  intros Hsub Hnone [HA HB HD HL].
  assert (∀ m reg K a,
    <[n := reg']> (instances s) !! m = Some reg → reg !! K = Some a →
    ∃ reg0, instances s !! m = Some reg0 ∧ reg0 !! K = Some a) as Hold.
  { intros m reg K a. rewrite lookup_insert. case_decide; [subst m|by eauto].
    intros [= <-] HK. destruct (instances s !! n) as [reg0|] eqn:Hn.
    - exists reg0. split; [done|]. by eapply lookup_weaken, Hsub.
    - rewrite (Hnone eq_refl) in HK. by rewrite lookup_empty in HK. }
  split; simpl; [done|..|done].
  - intros m reg K a Hm HK. destruct (Hold _ _ _ _ Hm HK) as (? & ? & ?). by eauto.
  - intros m reg K m' reg2 K' a Hm HK Hm' HK'.
    destruct (Hold _ _ _ _ Hm HK) as (? & ? & ?).
    destruct (Hold _ _ _ _ Hm' HK') as (? & ? & ?). by eauto.
Qed.

Lemma id_inv_shrink n reg' s :
  (∀ reg, instances s !! n = Some reg → reg' ⊆ reg) →
  (instances s !! n = None → reg' = ∅) →
  id_inv s → id_inv (set_instances (<[n := reg']> (instances s)) s).
Proof.
  intros Hsub Hnone [HC HE]. split; simpl; [|done].
  intros m reg K a o. rewrite lookup_insert. case_decide; [subst m|by eauto].
  intros [= <-] HK. destruct (instances s !! n) as [reg0|] eqn:Hn.
  - eapply HC; [done|]. by eapply lookup_weaken, Hsub.
  - rewrite (Hnone eq_refl) in HK. by rewrite lookup_empty in HK.
Qed.

Lemma alloc_inv_cleaned n reg X s :
  instances s !! n = Some reg → alloc_inv s → alloc_inv (cleaned n reg X s).
Proof.
  intros Hn. apply alloc_inv_shrink.
  - intros reg0 Hn0. assert (reg0 = reg) as -> by congruence. apply delete_subseteq.
  - by rewrite Hn.
Qed.

Lemma id_inv_cleaned n reg X s :
  instances s !! n = Some reg → id_inv s → id_inv (cleaned n reg X s).
Proof.
  intros Hn. apply id_inv_shrink.
  - intros reg0 Hn0. assert (reg0 = reg) as -> by congruence. apply delete_subseteq.
  - by rewrite Hn.
Qed.

Lemma alloc_inv_allocated cls n reg X s :
  instances s !! n = Some reg → alloc_inv s → alloc_inv (allocated cls n reg X s).
Proof.
  intros Hn [HA HB HD HL].
  assert (∀ m r K a,
    <[n := <[X := next s]> reg]> (instances s) !! m = Some r → r !! K = Some a →
    (m = n ∧ K = X ∧ a = next s) ∨
    (a < next s ∧ ∃ r0, instances s !! m = Some r0 ∧ r0 !! K = Some a)) as Hold.
  { intros m r K a. rewrite lookup_insert. case_decide; [subst m|by eauto 6].
    intros [= <-]. rewrite lookup_insert. case_decide; [subst K|by eauto 6].
    intros [= <-]. by left. }
  split; simpl.
  - intros a o. rewrite lookup_insert. case_decide; [subst; lia|].
    intros Ha%HA. lia.
  - intros m r K a Hm HK.
    destruct (Hold _ _ _ _ Hm HK) as [(_ & _ & ->)|[Hlt _]]; lia.
  - intros m r K m' r' K' a Hm HK Hm' HK'.
    destruct (Hold _ _ _ _ Hm HK) as [(-> & -> & ->)|(Hlt & r0 & H0 & HK0)];
    destruct (Hold _ _ _ _ Hm' HK') as [(-> & -> & Heq)|(Hlt' & r1 & H1 & HK1)];
      try done; try lia.
    by eauto.
  - intros e He%HL. lia.
Qed.

Lemma id_inv_allocated cls n reg X s :
  hooks_keep_id cls →
  instances s !! n = Some reg → alloc_inv s → id_inv s →
  id_inv (allocated cls n reg X s).
Proof.
  intros Hk Hn [HA HB HD HL] [HC HE]. split; simpl.
  - intros m r K a o. rewrite (lookup_insert (heap s)).
    case_decide as Ha; [subst a; intros _ _ ?; simplify_eq; by left|].
    rewrite lookup_insert. case_decide; [subst m|by eauto].
    intros [= <-]. rewrite lookup_insert. case_decide; [congruence|by eauto].
  - intros a o. rewrite lookup_insert.
    case_decide; [intros ?; by simplify_eq|by eauto].
Qed.

Lemma alloc_inv_born cls s : alloc_inv s → alloc_inv (born cls s).
Proof.
  intros [HA HB HD HL]. split; simpl.
  - intros a o. rewrite lookup_insert. case_decide; [subst; lia|].
    intros Ha%HA. lia.
  - intros m r K a Hm HK. pose proof (HB _ _ _ _ Hm HK). lia.
  - by eauto.
  - intros e He%HL. lia.
Qed.

Lemma id_inv_born cls s :
  hooks_keep_id cls → alloc_inv s → id_inv s → id_inv (born cls s).
Proof.
  intros Hk [HA HB HD HL] [HC HE]. split; simpl.
  - intros m r K a o Hm HK. rewrite lookup_insert.
    case_decide as Ha; [subst a|by eauto].
    pose proof (HB _ _ _ _ Hm HK). lia.
  - intros a o. rewrite lookup_insert.
    case_decide; [intros ?; by simplify_eq|by eauto].
Qed.

(** Hooks on an object that no registry holds. *)
Lemma id_inv_touch_free a d evs s o :
  heap s !! a = Some o →
  (∀ n reg K, instances s !! n = Some reg → reg !! K ≠ Some a) →
  id_inv s → id_inv (touch a d evs s).
Proof.
  intros Ho Hfree [HC HE]. split; simpl.
  - intros m r K b o'. rewrite lookup_alter. case_decide; [subst b|by eauto].
    intros Hm HK. by destruct (Hfree _ _ _ Hm HK).
  - intros b o'. rewrite lookup_alter. case_decide; [subst b|by eauto].
    rewrite Ho. intros [= <-]. simpl. by eauto.
Qed.

Lemma born_free cls s n reg K :
  alloc_inv s → instances (born cls s) !! n = Some reg → reg !! K ≠ Some (next s).
Proof.
  intros [HA HB HD HL] Hn HK. pose proof (HB _ _ _ _ Hn HK). lia.
Qed.

Lemma constructs_tracked_dec cls :
  constructs_tracked cls ∨ ¬ constructs_tracked cls.
Proof.
  unfold constructs_tracked.
  destruct (class_getattr cls "__new__") as [[v|h|[]]|]; by (left + right).
Qed.

Lemma id_inv_touch a X args kw d evs s o n reg :
  heap s !! a = Some o →
  instances s !! n = Some reg → reg !! X = Some a →
  hooked (ob_type o) a X args kw (ob_dict o) d evs →
  alloc_inv s → id_inv s → id_inv (touch a d evs s).
Proof.
  intros Ho Hn HX Hh [HA HB HD HL] [HC HE]. split; simpl.
  - intros m r K b o'. rewrite lookup_alter. case_decide; [subst b|by eauto].
    rewrite Ho. intros Hm HK [= <-]. simpl.
    destruct (HD _ _ _ _ _ _ _ Hn HX Hm HK) as [<- <-].
    destruct (hooked_id _ _ _ _ _ _ _ _ (HE _ _ Ho) Hh) as [-> | ->]; [|by right].
    by eapply HC.
  - intros b o'. rewrite lookup_alter. case_decide; [subst b|by eauto].
    rewrite Ho. intros [= <-]. simpl. by eauto.
Qed.

Lemma define_class_eq nom bases dct s :
  define_class nom bases dct s =
  match TrackedType_new nom bases dct s with
  | (Ok cls, s') =>
      (Ok cls, if object_in bases then s'
               else set_instances (<[nom := ∅]> (instances s')) s')
  | (Raise e, s') => (Raise e, s')
  end.
Proof.
  unfold define_class, bind, TrackedType_init, store_instances, ret.
  destruct (TrackedType_new nom bases dct s) as [[cls|e] s']; [|done].
  by destruct (object_in bases).
Qed.

Lemma new_class_run nom bases dct s :
  run (TrackedType_new nom bases dct) s = set_mutex 0 s.
Proof.
  unfold run. destruct (object_in bases) eqn:Hob.
  - by rewrite new_class_untracked.
  - by rewrite new_class_tracked.
Qed.

Lemma define_class_run nom bases dct s :
  run (define_class nom bases dct) s = set_mutex 0 s ∨
  run (define_class nom bases dct) s =
  set_instances (<[nom := ∅]> (instances s)) (set_mutex 0 s).
Proof.
  unfold run. rewrite define_class_eq.
  pose proof (new_class_run nom bases dct s) as Hrun. unfold run in Hrun.
  destruct (TrackedType_new nom bases dct s) as [[cls|e] s']; simpl in *; subst s';
    [|by left].
  destruct (object_in bases); [by left|by right].
Qed.

Lemma setattr_absent a name v s :
  heap s !! a = None → run (setattr a name v) s = s.
Proof.
  intros Ha. unfold run, setattr. destruct s as [mu ins hp nx lg].
  unfold set_heap. simpl in *. f_equal.
  apply map_eq. intros b. rewrite lookup_alter.
  case_decide; [subst b; by rewrite Ha|done].
Qed.

Lemma alloc_inv_setattr a name v s : alloc_inv s → alloc_inv (run (setattr a name v) s).
Proof.
  intros Hinv. destruct (heap s !! a) as [o|] eqn:Ho.
  - unfold run. rewrite (setattr_touch _ _ _ _ _ Ho). simpl.
    by eapply alloc_inv_touch.
  - by rewrite setattr_absent.
Qed.

Lemma id_inv_setattr a name v s :
  name ≠ "_id" → id_inv s → id_inv (run (setattr a name v) s).
Proof.
  intros Hname [HC HE]. split; simpl.
  - intros n reg K b o. rewrite lookup_alter. case_decide; [subst b|by eauto].
    destruct (heap s !! a) as [o'|] eqn:Ho; [|done].
    intros Hn HK [= <-]. simpl. rewrite lookup_insert_ne by done. by eauto.
  - intros b o. rewrite lookup_alter. case_decide; [subst b|by eauto].
    destruct (heap s !! a) as [o'|] eqn:Ho; [|done].
    intros [= <-]. simpl. by eauto.
Qed.

Lemma step_alloc_inv good s s' : step good s s' → alloc_inv s → alloc_inv s'.
Proof.
  intros [nom bases dct s0|cls X args kw s0 _|a name v s0 _|a s0] Hinv;
    [| |by apply alloc_inv_setattr|].
  - destruct (define_class_run nom bases dct s0) as [-> | ->].
    + by apply alloc_inv_set_mutex.
    + apply (alloc_inv_shrink nom ∅ (set_mutex 0 s0));
        [intros; apply map_empty_subseteq|done|by apply alloc_inv_set_mutex].
  - destruct (constructs_tracked_dec cls) as [Hc|Hc].
    + pose proof (call_shape cls X args kw s0 Hc) as Hshape. unfold run.
      destruct (value (TrackedType_get cls X) s0) as [[a|]|e].
      * destruct Hshape as (o & n & reg & d & evs & Ho & Hn & Hreg & HX & Hh
                            & [-> | [e [-> | ->]]]); simpl;
          try apply alloc_inv_cleaned; try done;
          by eapply alloc_inv_touch; [|eapply hooked_self|].
      * destruct Hshape as (n & reg & d & evs & Hn & Hreg & Hh & [-> | [e ->]]);
          simpl; try apply alloc_inv_cleaned; try (simpl; by rewrite lookup_insert_eq);
          (eapply alloc_inv_touch;
           [simpl; by rewrite lookup_insert_eq|by eapply hooked_self
           |by apply alloc_inv_allocated]).
      * rewrite Hshape. by apply alloc_inv_set_mutex.
    + unfold run.
      assert (∀ d evs, Forall (λ e, ev_self e = next s0) evs →
                       alloc_inv (touch (next s0) d evs (born cls s0))) as Htouch.
      { intros d evs Hevs. eapply alloc_inv_touch;
          [simpl; by rewrite lookup_insert_eq|done|by apply alloc_inv_born]. }
      destruct (call_shape_untracked cls X args kw s0 Hc)
        as [->|(d & evs & Hh & [->|[e [->|(n & reg & Hn & Hreg & HX & ->)]]])];
        simpl; [done|..]; try apply alloc_inv_cleaned; try done;
        apply Htouch; by eapply hooked_self.
  - by apply alloc_inv_collect.
Qed.

Lemma step_id_inv s s' :
  step hooks_keep_id s s' → alloc_inv s → id_inv s → id_inv s'.
Proof.
  intros [nom bases dct s0|cls X args kw s0 Hk|a name v s0 Hname|a s0] Ha Hinv;
    [| |by apply id_inv_setattr|].
  - destruct (define_class_run nom bases dct s0) as [-> | ->].
    + by apply id_inv_set_mutex.
    + apply (id_inv_shrink nom ∅ (set_mutex 0 s0));
        [intros; apply map_empty_subseteq|done|by apply id_inv_set_mutex].
  - destruct (constructs_tracked_dec cls) as [Hc|Hc].
    + pose proof (call_shape cls X args kw s0 Hc) as Hshape. unfold run.
      destruct (value (TrackedType_get cls X) s0) as [[a|]|e].
      * destruct Hshape as (o & n & reg & d & evs & Ho & Hn & Hreg & HX & Hh
                            & [-> | [e [-> | ->]]]); simpl;
          try apply id_inv_cleaned; try done; by eapply id_inv_touch.
      * destruct Hshape as (n & reg & d & evs & Hn & Hreg & Hh & [-> | [e ->]]);
          simpl; try apply id_inv_cleaned; try (simpl; by rewrite lookup_insert_eq);
          (eapply (id_inv_touch _ _ _ _ _ _ _ (Object cls ∅) n (<[X := next s0]> reg));
           [simpl; by rewrite lookup_insert_eq..|done
           |by apply alloc_inv_allocated|by apply id_inv_allocated]).
      * rewrite Hshape. by apply id_inv_set_mutex.
    + unfold run.
      assert (∀ d evs, id_inv (touch (next s0) d evs (born cls s0))) as Htouch.
      { intros d evs. eapply id_inv_touch_free.
        - simpl. by rewrite lookup_insert_eq.
        - intros n reg K Hn. by eapply born_free.
        - by apply id_inv_born. }
      destruct (call_shape_untracked cls X args kw s0 Hc)
        as [->|(d & evs & Hh & [->|[e [->|(n & reg & Hn & Hreg & HX & ->)]]])];
        simpl; [done|apply Htouch|apply Htouch|].
      by apply id_inv_cleaned.
  - by apply id_inv_collect.
Qed.

Lemma reachable_alloc_inv good s : reachable good s → alloc_inv s.
Proof.
  unfold reachable. intros H.
  eapply (rtc_ind_r alloc_inv init_state); [apply alloc_inv_init| |exact H].
  intros s1 s2 _ Hstep IH. by eapply step_alloc_inv.
Qed.

Lemma reachable_id_inv s : reachable hooks_keep_id s → id_inv s.
Proof.
  unfold reachable. intros H.
  eapply (rtc_ind_r id_inv init_state); [apply id_inv_init| |exact H].
  intros s1 s2 H12 Hstep IH.
  eapply step_id_inv; [done| |done]. by eapply reachable_alloc_inv.
Qed.

(** ** The three kinds of construction call, run exactly *)

Lemma lookup_attr_empty cls name : lookup_attr cls ∅ name = class_getattr cls name.
Proof. unfold lookup_attr. by rewrite lookup_empty. Qed.

Lemma lookup_attr_class cls (d : attrs) name :
  d !! name = None → lookup_attr cls d name = class_getattr cls name.
Proof. unfold lookup_attr. by intros ->. Qed.

Lemma call_init_tracked obj X args kw s o :
  heap s !! obj = Some o →
  lookup_attr (ob_type o) (ob_dict o) "__init__" =
    Some (MNative fn_TrackedObject_init) →
  call_init obj X args kw s = TrackedObject_init obj X args kw s.
Proof.
  intros Ho Hi. unfold call_init, bind. by rewrite (getattr_eq _ _ _ _ Ho), Hi.
Qed.


Lemma call_forced cls X args kw s a o h :
  constructs_tracked cls →
  value (TrackedType_get cls X) s = Ok (Some a) →
  heap s !! a = Some o →
  truthy (force_reload kw) = true →
  lookup_attr (ob_type o) (ob_dict o) "reload" = Some (MFun h) →
  TrackedType_call cls X args kw s =
  match (h X args (delete "force_reload" kw) (ob_dict o)).2 with
  | Some e =>
      (Raise e,
       touch a (h X args (delete "force_reload" kw) (ob_dict o)).1
         [Event "reload" a X args (delete "force_reload" kw)] s)
  | None =>
      finish cls X args (delete "force_reload" kw) a
        (touch a (h X args (delete "force_reload" kw) (ob_dict o)).1
           [Event "reload" a X args (delete "force_reload" kw)] s)
  end.
Proof.
  intros Hc Hget Ho Hf Hh. rewrite call_finish by done. unfold bind at 1.
  rewrite (new_live _ _ _ _ _ _ Hget), Hf. unfold bind at 1.
  rewrite (call_method_fun _ _ _ _ _ _ _ _ Ho Hh).
  by destruct (h X args (delete "force_reload" kw) (ob_dict o)).2.
Qed.

Lemma first_construction cls X args kw s n reg :
  constructs_tracked cls → initializes_tracked cls →
  reads_None (class_getattr cls "_id") = true →
  value (TrackedType_get cls X) s = Ok None →
  registry_name cls = Some n →
  instances s !! n = Some reg →
  TrackedType_call cls X args kw s =
  match (initialize cls (next s) X args (delete "force_reload" kw) ∅).1.2 with
  | None =>
      (Ok (next s),
       touch (next s)
         (initialize cls (next s) X args (delete "force_reload" kw) ∅).1.1
         (initialize cls (next s) X args (delete "force_reload" kw) ∅).2
         (allocated cls n reg X s))
  | Some e =>
      (Raise e,
       cleaned n (<[X := next s]> reg) X
         (touch (next s)
            (initialize cls (next s) X args (delete "force_reload" kw) ∅).1.1
            (initialize cls (next s) X args (delete "force_reload" kw) ∅).2
            (allocated cls n reg X s)))
  end.
Proof.
  intros Hc Hi Hu Hget Hn Hreg. rewrite call_finish by done.
  unfold bind at 1. rewrite (new_absent _ _ _ _ _ _ _ Hget Hn Hreg).
  assert (heap (allocated cls n reg X s) !! next s = Some (Object cls ∅)) as Ho
    by (simpl; by rewrite lookup_insert_eq).
  assert (¬ identified (next s) (allocated cls n reg X s)) as Hid.
  { unfold identified. rewrite (attr_of_eq _ _ _ _ Ho). simpl.
    by rewrite lookup_attr_empty, Hu. }
  rewrite finish_unidentified by done.
  rewrite (call_init_tracked _ _ _ _ _ _ Ho) by (by rewrite lookup_attr_empty).
  rewrite (TrackedObject_init_exact _ _ _ _ _ _ Ho) by done.
  simpl. destruct (initialize _ _ _ _ _ _).1.2 as [e|]; simpl; [|done].
  rewrite (clean_present cls X _ n (<[X := next s]> reg) (next s)); [done..| |].
  - simpl. by rewrite lookup_insert_eq.
  - by rewrite lookup_insert_eq.
Qed.

Lemma get_touch cls K a d evs s :
  value (TrackedType_get cls K) (touch a d evs s) = value (TrackedType_get cls K) s.
Proof.
  unfold value, TrackedType_get, bind, cls_instances, deref, ret. simpl.
  destruct (registry_name cls) as [n|]; [|done].
  destruct (instances s !! n) as [reg|]; [|done].
  destruct (reg !! K) as [b|]; [|done]. simpl.
  rewrite lookup_alter. case_decide; [subst b|done].
  by destruct (heap s !! a).
Qed.

(** A function found on an instance is a function of its class. *)
Lemma lookup_attr_fun cls (d : attrs) name h :
  lookup_attr cls d name = Some (MFun h) → class_getattr cls name = Some (MFun h).
Proof. unfold lookup_attr. by destruct (d !! name). Qed.

Lemma initialize_id cls self X args kw d :
  hooks_keep_id cls →
  (initialize cls self X args kw d).1.1 !! "_id" = Some X.
Proof.
  intros Hk. unfold initialize.
  assert ((pre_init cls X args kw (<["_id" := X]> d)).1 !! "_id" = Some X) as Hpre.
  { unfold pre_init.
    destruct (lookup_attr cls _ "_tracked_init") as [[?|h|?]|] eqn:Hh; simpl;
      try (by rewrite lookup_insert_eq).
    apply lookup_attr_fun in Hh. by rewrite (Hk _ _ Hh), lookup_insert_eq. }
  destruct (pre_init cls X args kw (<["_id" := X]> d)).2; [done|].
  destruct (lookup_attr cls _ "_load") as [[?|h|?]|] eqn:Hh; simpl; try done.
  apply lookup_attr_fun in Hh. by rewrite (Hk _ _ Hh).
Qed.

Lemma call_ok_registered cls X args kw s a s1 :
  constructs_tracked cls →
  TrackedType_call cls X args kw s = (Ok a, s1) →
  value (TrackedType_get cls X) s1 = Ok (Some a).
Proof.
  intros Hc Hcall. pose proof (call_shape cls X args kw s Hc) as Hshape.
  destruct (value (TrackedType_get cls X) s) as [[a0|]|e] eqn:Hget.
  - destruct Hshape as (o & n & reg & d & evs & _ & _ & _ & _ & _ & Hout).
    rewrite Hcall in Hout.
    destruct Hout as [[= -> ->]|[e [?|?]]]; [|done..].
    by rewrite get_touch.
  - destruct Hshape as (n & reg & d & evs & Hn & Hreg & _ & Hout).
    rewrite Hcall in Hout. destruct Hout as [[= -> ->]|[e ?]]; [|done].
    rewrite get_touch. apply get_live. exists n, (<[X := next s]> reg). simpl.
    by rewrite !lookup_insert_eq.
  - by rewrite Hshape in Hcall.
Qed.

Lemma call_live_same cls X args kw s a b s1 :
  constructs_tracked cls →
  value (TrackedType_get cls X) s = Ok (Some a) →
  TrackedType_call cls X args kw s = (Ok b, s1) →
  b = a.
Proof.
  intros Hc Hget Hcall. pose proof (call_shape cls X args kw s Hc) as Hshape.
  rewrite Hget in Hshape.
  destruct Hshape as (o & n & reg & d & evs & _ & _ & _ & _ & _ & Hout).
  rewrite Hcall in Hout. by destruct Hout as [[= -> ->]|[e [?|?]]].
Qed.

Lemma id_value b s o :
  heap s !! b = Some o →
  value (TrackedObject_id b) s =
  match lookup_attr (ob_type o) (ob_dict o) "_id" with
  | Some m => Ok m
  | None => Raise (AttributeError "_id")
  end.
Proof.
  intros Ho. unfold value, TrackedObject_id, bind.
  rewrite (getattr_eq _ _ _ _ Ho).
  by destruct (lookup_attr (ob_type o) (ob_dict o) "_id").
Qed.

Lemma reachable_mono (good good' : pyclass → Prop) s :
  (∀ c, good c → good' c) → reachable good s → reachable good' s.
Proof.
  intros Hg. unfold reachable. intros H.
  eapply (rtc_ind_r (λ s, rtc (step good') init_state s) init_state);
    [apply rtc_refl| |exact H].
  intros s1 s2 _ Hstep IH. eapply rtc_r; [exact IH|].
  destruct Hstep; constructor; by eauto.
Qed.

Lemma live_touch (good : pyclass → Prop) b d evs st :
  (∀ a o, heap st !! a = Some o → good (ob_type o)) →
  ∀ a o, heap (touch b d evs st) !! a = Some o → good (ob_type o).
Proof.
  intros H a o. rewrite heap_touch. case_decide; [subst b|by eauto].
  destruct (heap st !! a) as [o'|] eqn:Ho'; simpl; [|done].
  intros [= <-]. simpl. by eapply H.
Qed.

Lemma live_insert (good : pyclass → Prop) cls (h : gmap addr object) b :
  good cls →
  (∀ a o, h !! a = Some o → good (ob_type o)) →
  ∀ a o, <[b := Object cls ∅]> h !! a = Some o → good (ob_type o).
Proof.
  intros Hg H a o. rewrite lookup_insert.
  case_decide; [intros ?; by simplify_eq|by eauto].
Qed.

(** The class of every live object of a reachable state is one of the
    classes that were instantiated. *)
Lemma reachable_live good s a o :
  reachable good s → heap s !! a = Some o → good (ob_type o).
Proof.
  unfold reachable. intros H. revert a o.
  eapply (rtc_ind_r (λ s, ∀ a o, heap s !! a = Some o → good (ob_type o))
            init_state); [|clear H|exact H].
  { intros a o. simpl. by rewrite lookup_empty. }
  intros s1 s2 _ Hstep IH.
  destruct Hstep as [nom bases dct s0|cls X args kw s0 Hg|b name v s0 _|b s0].
  - destruct (define_class_run nom bases dct s0) as [-> | ->]; simpl; exact IH.
  - unfold run. destruct (constructs_tracked_dec cls) as [Hc|Hc].
    + pose proof (call_shape cls X args kw s0 Hc) as Hshape.
      destruct (value (TrackedType_get cls X) s0) as [[a0|]|e].
      * destruct Hshape as (o0 & n & reg & d & evs & Ho & Hn & Hreg & HX & Hh
                            & [-> | [e [-> | ->]]]); simpl;
          by apply (live_touch good a0 d evs s0).
      * destruct Hshape as (n & reg & d & evs & Hn & Hreg & Hh & [-> | [e ->]]);
          simpl; apply (live_touch good (next s0) d evs (allocated cls n reg X s0));
          simpl; by apply live_insert.
      * rewrite Hshape. simpl. exact IH.
    + destruct (call_shape_untracked cls X args kw s0 Hc)
        as [->|(d & evs & Hh & [->|[e [->|(n & reg & Hn & Hreg & HX & ->)]]])];
        simpl; [exact IH|..];
        apply (live_touch good (next s0) d evs (born cls s0));
        simpl; by apply live_insert.
  - destruct (heap s0 !! b) as [o'|] eqn:Ho'.
    + unfold run. rewrite (setattr_touch _ _ _ _ _ Ho').
      by apply (live_touch good b (<[name := v]> (ob_dict o')) [] s0).
    + by rewrite setattr_absent.
  - simpl. intros a o Ha. apply lookup_delete_Some in Ha as [_ Ha]. by eauto.
Qed.


(** ** Classes whose hooks leave [_id] alone *)

Lemma object_dict_native name h : object_dict !! name ≠ Some (MFun h).
Proof.
  unfold object_dict. rewrite lookup_insert. case_decide; [done|].
  rewrite lookup_singleton. by case_decide.
Qed.

Lemma TrackedObject_keeps_id : hooks_keep_id TrackedObject.
Proof.
  intros name h. unfold class_getattr, TrackedObject. simpl.
  repeat (rewrite lookup_insert; case_decide; [done|]).
  rewrite lookup_singleton. case_decide; [done|].
  intros Hobj. by apply object_dict_native in Hobj.
Qed.

Lemma body_dict_from k h dct :
  body_dict dct !! k = Some (MFun h) → ∃ k', dct !! k' = Some (MFun h).
Proof.
  unfold body_dict, copy_key, has_key.
  repeat case_match; simplify_eq;
    rewrite ?lookup_insert; repeat case_decide; intros; simplify_map_eq;
    by eauto.
Qed.

Lemma defined_keeps_id nom parent dct s cls :
  value (TrackedType_new nom [parent] dct) s = Ok cls →
  hooks_keep_id parent →
  (∀ k h, dct !! k = Some (MFun h) → keeps_id h) →
  hooks_keep_id cls.
Proof.
  intros Hnew Hp Hd name h. revert Hnew. unfold value.
  destruct (object_in [parent]) eqn:Hob.
  - rewrite new_class_untracked by done. intros [= <-].
    unfold class_getattr. simpl. destruct (dct !! name) as [m|] eqn:Hm.
    + intros [= ->]. by eauto.
    + intros Hpar. apply (Hp name h). unfold class_getattr.
      by destruct (class_lookup parent name).
  - rewrite new_class_tracked by done. simpl.
    destruct (negb (has_key "_load" dct)); [done|].
    destruct (has_key "__new__" dct); [done|].
    destruct (has_key "id" dct); [done|].
    destruct (class_getattr parent "__init__") as [init|] eqn:Hinit; [|done].
    intros [= <-]. unfold class_getattr. simpl.
    rewrite lookup_insert. case_decide as Hname.
    + subst name. intros [= ->]. by eapply Hp.
    + destruct (body_dict dct !! name) as [m|] eqn:Hm.
      * intros [= ->]. apply body_dict_from in Hm as [k' Hk']. by eauto.
      * intros Hpar. apply (Hp name h). unfold class_getattr.
        by destruct (class_lookup parent name).
Qed.

Lemma Widget_keeps_id : hooks_keep_id Widget.
Proof.
  apply (defined_keeps_id "Widget" TrackedObject widget_body init_state);
    [done|apply TrackedObject_keeps_id|].
  unfold widget_body. intros k h [_ [= <-]]%lookup_singleton_Some id args kw d.
  simpl. by rewrite lookup_insert_ne.
Qed.

(** ** What a first construction leaves behind *)


Lemma first_construction_obs cls X args kw s :
  constructs_tracked cls → initializes_tracked cls →
  reads_None (class_getattr cls "_id") = true →
  value (TrackedType_get cls X) s = Ok None →
  ∃ n reg, registry_name cls = Some n ∧ instances s !! n = Some reg ∧
    let i := initialize cls (next s) X args (delete "force_reload" kw) ∅ in
    let s' := run (TrackedType_call cls X args kw) s in
    value (TrackedType_call cls X args kw) s =
      match i.1.2 with None => Ok (next s) | Some e => Raise e end ∧
    heap s' = <[next s := Object cls i.1.1]> (heap s) ∧
    instances s' =
      <[n := match i.1.2 with
             | Some _ => delete X reg
             | None => <[X := next s]> reg
             end]> (instances s) ∧
    next s' = S (next s) ∧
    log s' = log s ++ i.2.
Proof.
  intros Hc Hi Hu Hget. pose proof Hget as (n & reg & Hn & Hreg & _)%get_absent.
  exists n, reg. split_and!; [done..|]. simpl. unfold value, run.
  rewrite (first_construction _ _ _ _ _ _ _ Hc Hi Hu Hget Hn Hreg).
  destruct (initialize cls (next s) X args (delete "force_reload" kw) ∅)
    as [[d r] evs] eqn:Hini. simpl.
  destruct r as [e|]; simpl; split_and!; try done;
    try (by rewrite alter_insert_eq).
  by rewrite insert_insert_eq, delete_insert_eq.
Qed.

Lemma defined_reload nom bases dct s0 cls :
  value (TrackedType_new nom bases dct) s0 = Ok cls →
  object_in bases = false →
  class_getattr cls "reload" = reload_of dct.
Proof.
  intros Hnew Hob. revert Hnew. unfold value.
  rewrite new_class_tracked by done. simpl.
  destruct (has_key "_load" dct) eqn:Hl; [|done].
  destruct (has_key "__new__" dct); [done|].
  destruct (has_key "id" dct); [done|]. simpl.
  destruct bases as [|base0 rest]; [done|].
  destruct (class_getattr base0 "__init__") as [init|]; [|done].
  intros [= <-]. apply has_key_true in Hl as [m Hm].
  assert (∃ m', reload_of dct = Some m') as [m' Hm'].
  { unfold reload_of. destruct (dct !! "reload"); by eauto. }
  rewrite Hm'. apply class_getattr_own.
  by rewrite lookup_insert_ne, body_dict_reload.
Qed.

Lemma alter_with_dict a o d (h : gmap addr object) :
  h !! a = Some o → alter (with_dict d) a h = <[a := Object (ob_type o) d]> h.
Proof.
  intros Ho. apply map_eq. intros b. rewrite lookup_alter, lookup_insert.
  case_decide; [subst b|done]. by rewrite Ho.
Qed.

(** ** Counting calls in the trace *)





(** ** The hooks a construction call can invoke *)








Lemma get_entry cls X s n reg :
  registry_name cls = Some n → instances s !! n = Some reg →
  TrackedType_get cls X s =
  (Ok (match reg !! X with
       | Some a => match heap s !! a with Some _ => Some a | None => None end
       | None => None
       end), s).
Proof.
  intros Hn Hreg.
  unfold TrackedType_get, bind, cls_instances, deref, ret.
  rewrite Hn, Hreg. by destruct (reg !! X).
Qed.

(** On a class that has a registry, a construction call through
    [TrackedObject.__new__] acts on one object [obj], the live instance
    registered under [X] or else a new one: hooks rewrite its [__dict__],
    the entry of [X] is set to it or deleted, and nothing else changes. *)
Lemma call_effect cls X args kw s r s' n reg :
  constructs_tracked cls →
  TrackedType_call cls X args kw s = (r, s') →
  registry_name cls = Some n → instances s !! n = Some reg →
  ∃ obj o0 d evs,
    (value (TrackedType_get cls X) s = Ok (Some obj) ∧
     heap s !! obj = Some o0 ∧ reg !! X = Some obj ∧ next s' = next s
     ∨ value (TrackedType_get cls X) s = Ok None ∧
       obj = next s ∧ o0 = Object cls ∅ ∧ next s' = S (next s)) ∧
    hooked (ob_type o0) obj X args (delete "force_reload" kw) (ob_dict o0) d evs ∧
    mutex s' = mutex s ∧
    heap s' = <[obj := Object (ob_type o0) d]> (heap s) ∧
    log s' = log s ++ evs ∧
    (r = Ok obj ∧ instances s' = <[n := <[X := obj]> reg]> (instances s) ∨
     (∃ e, r = Raise e) ∧
     (instances s' = instances s ∨
      instances s' = <[n := delete X reg]> (instances s))).
Proof.
  intros Hc Hcall Hn Hreg. pose proof (call_shape cls X args kw s Hc) as Hshape.
  destruct (value (TrackedType_get cls X) s) as [[a|]|e] eqn:Hget.
  - destruct Hshape as (o & n' & reg' & d & evs & Ho & Hn' & Hreg' & HX & Hhk & Hout).
    assert (n' = n) as -> by congruence. assert (reg' = reg) as -> by congruence.
    exists a, o, d, evs.
    assert (heap (touch a d evs s) = <[a := Object (ob_type o) d]> (heap s)) as Hheap.
    { simpl. by apply alter_with_dict. }
    destruct Hout as [Hr|[e [Hr|Hr]]]; rewrite Hr in Hcall; simplify_eq; simpl.
    + split_and!; [by left|done|done|by apply alter_with_dict|done|].
      left. split; [done|]. by rewrite (insert_id reg X a HX), insert_id.
    + split_and!; [by left|done|done|by apply alter_with_dict|done|].
      right. split; [by eexists|by left].
    + split_and!; [by left|done|done|by apply alter_with_dict|done|].
      right. split; [by eexists|by right].
  - destruct Hshape as (n' & reg' & d & evs & Hn' & Hreg' & Hhk & Hout).
    assert (n' = n) as -> by congruence. assert (reg' = reg) as -> by congruence.
    exists (next s), (Object cls ∅), d, evs.
    destruct Hout as [Hr|[e Hr]]; rewrite Hr in Hcall; simplify_eq; simpl.
    + split_and!; [by right|done|done| |done|by left].
      by rewrite alter_insert_eq.
    + split_and!; [by right|done|done| |done|].
      { by rewrite alter_insert_eq. }
      right. split; [by eexists|right].
      by rewrite insert_insert_eq, delete_insert_eq.
  - exfalso. unfold value in Hget.
    rewrite (get_entry cls X s n reg Hn Hreg) in Hget. done.
Qed.

Lemma reachable_call good cls X args kw s :
  good cls → reachable good s →
  reachable good (run (TrackedType_call cls X args kw) s).
Proof.
  intros Hg Hr. eapply rtc_r; [exact Hr|]. by apply step_call.
Qed.

Lemma reachable_define good nom bases dct s :
  reachable good s → reachable good (run (define_class nom bases dct) s).
Proof. intros Hr. eapply rtc_r; [exact Hr|]. apply step_define. Qed.


(** ** Classes made and initialized by [TrackedObject] *)

Lemma tracked_reads_None cls :
  unbound_id cls → reads_None (class_getattr cls "_id") = true.
Proof. unfold unbound_id. by intros ->. Qed.



(** Attribute lookup on a class made by [TrackedType.__new__] with one
    parent: the dictionary made of the body, then the parent. *)
Lemma defined_getattr nom parent dct s cls k :
  value (TrackedType_new nom [parent] dct) s = Ok cls →
  is_object parent = false →
  k ≠ "__init__" →
  class_getattr cls k =
  match body_dict dct !! k with
  | Some m => Some m
  | None => class_getattr parent k
  end.
Proof.
  intros Hnew Hob Hk. revert Hnew. unfold value.
  rewrite new_class_tracked by (simpl; by rewrite Hob). simpl.
  destruct (negb (has_key "_load" dct)); [done|].
  destruct (has_key "__new__" dct); [done|].
  destruct (has_key "id" dct); [done|].
  destruct (class_getattr parent "__init__") as [init|]; [|done].
  intros [= <-]. unfold class_getattr. simpl.
  rewrite lookup_insert_ne by done.
  destruct (body_dict dct !! k); [done|].
  by destruct (class_lookup parent k).
Qed.

Lemma body_dict_other dct k :
  k ≠ "reload" → k ≠ "_tracked_init" → body_dict dct !! k = dct !! k.
Proof.
  intros H1 H2. unfold body_dict, copy_key, has_key.
  repeat case_match; by rewrite ?lookup_insert_ne by done.
Qed.

(** A name that tracked bodies cannot bind is, on a class of the family,
    what [TrackedObject] binds it to. *)
Lemma trackable_forbidden cls k :
  k = "__new__" ∨ k = "id" →
  trackable cls → class_getattr cls k = class_getattr TrackedObject k.
Proof.
  intros Hk.
  assert (k ≠ "__init__" ∧ k ≠ "reload" ∧ k ≠ "_tracked_init") as (K1 & K2 & K3)
    by (destruct Hk as [-> | ->]; by split_and!).
  assert (∀ nom parent dct s c,
    is_object parent = false →
    class_getattr parent k = class_getattr TrackedObject k →
    value (TrackedType_new nom [parent] dct) s = Ok c →
    class_getattr c k = class_getattr TrackedObject k) as Hone.
  { intros nom parent dct s c Hob Hp Hnew.
    rewrite (defined_getattr _ _ _ _ _ k Hnew Hob) by done.
    rewrite body_dict_other by done.
    revert Hnew. unfold value.
    rewrite new_class_tracked by (simpl; by rewrite Hob). simpl.
    destruct (negb (has_key "_load" dct)); [done|].
    destruct (has_key "__new__" dct) eqn:Hn; [done|].
    destruct (has_key "id" dct) eqn:Hi; [done|].
    apply has_key_false in Hn, Hi.
    by destruct Hk as [-> | ->]; rewrite ?Hn, ?Hi. }
  intros H. induction H as [nom dct s c Hnew|nom parent dct s c Hp IH Hnew].
  - by apply (Hone nom TrackedObject dct s c eq_refl eq_refl).
  - eapply Hone; [|exact IH|done].
    by destruct (trackable_inv _ Hp) as (? & ? & ? & -> & _).
Qed.


Lemma trackable_id cls :
  trackable cls → class_getattr cls "id" = Some (MNative fn_TrackedObject_id).
Proof. intros Ht. by rewrite (trackable_forbidden cls "id") by eauto. Qed.

(** ** The sample family *)

Lemma Widget_trackable : trackable Widget.
Proof. by apply (trackable_child "Widget" widget_body init_state). Qed.

Lemma Flaky_trackable : trackable Flaky.
Proof. by apply (trackable_child "Flaky" flaky_body init_state). Qed.

Lemma Widget_tracked : tracked Widget.
Proof. by split_and!. Qed.


Lemma Widget_leaves_id : leaves_id Widget.
Proof. split; [exact Widget_keeps_id|done]. Qed.


Lemma widget_state_reachable : reachable any_class widget_state.
Proof. apply rtc_once, step_define. Qed.
(** * The properties *)

(** ** Construction calls *)




(** C2, for an instance whose [_id] is set and that has no attribute
    [reload] of its own.  Let [cls] be the class made of the body [dct],
    constructing through [TrackedObject.__new__], and [h] what the class has
    as [reload]: the [reload] of the body, or else its [_load].  On a live
    instance [a] of [cls] registered under [X] whose [__dict__] does not
    hold [reload], when [h] returns normally, the call
    [cls(X, *args, force_reload=True, **kw)] first invokes [h] on [a] with
    [X], [args] and the other keyword arguments, and can return nothing but
    [a].  When [h] leaves [_id] set, the call does return [a]; nothing else
    is invoked; the state differs only by what [h] did to the [__dict__] of
    [a]; and the id of [a] is what it was, [h] not having assigned [_id]. *)
Theorem C2_forced_reload nom bases dct s0 cls X args kw s a o h d' :
  value (TrackedType_new nom bases dct) s0 = Ok cls →
  object_in bases = false →
  constructs_tracked cls →
  reload_of dct = Some (MFun h) →
  value (TrackedType_get cls X) s = Ok (Some a) →
  heap s !! a = Some o → ob_type o = cls →
  ob_dict o !! "reload" = None →
  truthy (force_reload kw) = true →
  h X args (delete "force_reload" kw) (ob_dict o) = (d', None) →
  let s' := run (TrackedType_call cls X args kw) s in
  let ev := Event "reload" a X args (delete "force_reload" kw) in
  (∃ evs, log s' = log s ++ ev :: evs) ∧
  (∀ b, value (TrackedType_call cls X args kw) s = Ok b → b = a) ∧
  (reads_None (lookup_attr cls d' "_id") = false →
   value (TrackedType_call cls X args kw) s = Ok a ∧
   heap s' = <[a := Object cls d']> (heap s) ∧
   instances s' = instances s ∧
   log s' = log s ++ [ev] ∧
   (d' !! "_id" = ob_dict o !! "_id" →
    value (TrackedObject_id a) s' = value (TrackedObject_id a) s)).
Proof.
  intros Hnew Hob Hc Hre Hget Ho Hty Hsh Hf Hh. simpl.
  assert (lookup_attr (ob_type o) (ob_dict o) "reload" = Some (MFun h)) as Hm.
  { rewrite (lookup_attr_class _ _ _ Hsh), Hty, <- Hre. by eapply defined_reload. }
  pose proof (call_forced cls X args kw s a o h Hc Hget Ho Hf Hm) as Hcall.
  rewrite Hh in Hcall. simpl in Hcall.
  set (ev := Event "reload" a X args (delete "force_reload" kw)) in *.
  assert (heap (touch a d' [ev] s) !! a = Some (with_dict d' o)) as Ho'
    by by apply heap_touch_eq.
  split_and!.
  - pose proof Hget as (n & reg & Hn & Hreg & HX & _)%get_live.
    destruct (finish_shape cls X args (delete "force_reload" kw) a
                (touch a d' [ev] s) (with_dict d' o) n reg Ho' Hn Hreg HX)
      as (d2 & e2 & _ & Hfin).
    exists e2. unfold run. rewrite Hcall.
    destruct Hfin as [-> | [e ->]]; simpl; by rewrite <- app_assoc.
  - intros b Hb. eapply (call_live_same cls X args kw s a b); [done..|].
    rewrite (run_value (TrackedType_call cls X args kw) s). by rewrite Hb.
  - intros Hid.
    assert (TrackedType_call cls X args kw s = (Ok a, touch a d' [ev] s)) as Hres.
    { rewrite Hcall. apply finish_identified.
      unfold identified. rewrite (attr_of_eq _ _ _ _ Ho'). simpl.
      by rewrite Hty. }
    unfold run. rewrite Hres. simpl. split_and!; try done.
    + unfold value. by rewrite Hres.
    + rewrite (alter_with_dict _ _ _ _ Ho). by rewrite Hty.
    + intros Hsame. rewrite (id_value _ _ _ Ho), (id_value _ _ _ Ho'). simpl.
      unfold lookup_attr. by rewrite Hsame.
Qed.

Lemma C2_witness :
  value (TrackedType_call Widget (VInt 1) [] {[ "force_reload" := VInt 1 ]})
    widget_blue = Ok 0 ∧
  self_dict 0 widget_blue !! "color" = Some (VStr "blue") ∧
  self_dict 0
    (run (TrackedType_call Widget (VInt 1) [] {[ "force_reload" := VInt 1 ]})
       widget_blue) !! "color" = Some (VStr "red").
Proof.
  edestruct (C2_forced_reload "Widget" [TrackedObject] widget_body init_state
               Widget (VInt 1) [] {[ "force_reload" := VInt 1 ]} widget_blue 0
               (default (Object PyObject ∅) (heap widget_blue !! 0))
               widget_load) as (_ & _ & Hset);
    [reflexivity|reflexivity|exact (proj1 Widget_tracked)|reflexivity..|].
  destruct Hset as (Hv & Hheap & _); [reflexivity|].
  split; [exact Hv|]. split; [reflexivity|].
  unfold self_dict. rewrite Hheap. reflexivity.
Defined.

(** C2, as the specification words it, fails when the instance has an
    attribute [reload] of its own: after [w = Widget(1)] and
    [w.reload = 5], the call [Widget(1, force_reload=True)] finds [5] as
    [instance.reload], raises [TypeError] and invokes nothing. *)
Lemma C2_counterexample :
  value (TrackedType_get Widget (VInt 1)) widget_shadow = Ok (Some 0) ∧
  TrackedType_call Widget (VInt 1) [] {[ "force_reload" := VInt 1 ]} widget_shadow =
  (Raise TypeError, widget_shadow).
Proof. split; vm_compute; reflexivity. Qed.















(** ** Class definition, and the arguments of the hooks *)

(** C8.  A class statement for a tracked class (one that does not list
    [object] among its bases) whose body lacks [_load], or binds [__new__] or
    [id], raises in [TrackedType.__new__]: the statement yields no class, so
    nothing can ever be constructed from it, and it leaves the heap, the
    registries and the trace as they were. *)
Theorem C8_contract_checked_at_definition nom bases dct s :
  object_in bases = false →
  dct !! "_load" = None ∨ is_Some (dct !! "__new__") ∨ is_Some (dct !! "id") →
  define_class nom bases dct s =
  (Raise (Exception_ (if negb (has_key "_load" dct) then msg_load
                      else if has_key "__new__" dct then msg_new
                      else msg_id)),
   set_mutex 0 s).
Proof.
  intros Hob Hbad. rewrite define_class_eq, new_class_tracked by done.
  destruct (has_key "_load" dct) eqn:Hl; simpl; [|done].
  destruct (has_key "__new__" dct) eqn:Hn; simpl; [done|].
  destruct (has_key "id" dct) eqn:Hi; simpl; [done|].
  apply has_key_true in Hl. apply has_key_false in Hn, Hi.
  destruct Hbad as [Hbad|[[? Hbad]|[? Hbad]]]; [|congruence..].
  rewrite Hbad in Hl. by destruct Hl.
Qed.

Lemma C8_witness :
  object_in [TrackedObject] = false ∧
  (∅ : gmap string member) !! "_load" = None ∧
  define_class "Gadget" [TrackedObject] ∅ init_state =
  (Raise (Exception_ msg_load), set_mutex 0 init_state).
Proof.
  split; [reflexivity|]. split; [reflexivity|].
  exact (C8_contract_checked_at_definition "Gadget" [TrackedObject] ∅ init_state
           eq_refl (or_introl eq_refl)).
Defined.

(** C9.  Whatever a construction call [cls(X, *args, **kw)] does, every hook
    it invokes ([reload] on the forced path; the pre-initialization hook and
    [_load] on the initialization path) receives the id, the positional
    arguments as given and the keyword arguments without [force_reload]. *)
Theorem C9_force_reload_not_forwarded cls X args kw s :
  ∃ evs,
    log (run (TrackedType_call cls X args kw) s) = log s ++ evs ∧
    Forall (λ e, ev_id e = X ∧ ev_args e = args ∧
                 ev_kw e = delete "force_reload" kw ∧
                 ev_kw e !! "force_reload" = None) evs.
Proof.
  assert (∀ obj c d d' evs,
    hooked c obj X args (delete "force_reload" kw) d d' evs →
    Forall (λ e, ev_id e = X ∧ ev_args e = args ∧
                 ev_kw e = delete "force_reload" kw ∧
                 ev_kw e !! "force_reload" = None) evs) as Hev.
  { intros obj c d d' evs H%hooked_events. eapply Forall_impl; [done|].
    intros e (_ & -> & -> & ->). by rewrite lookup_delete_eq. }
  unfold run. destruct (constructs_tracked_dec cls) as [Hc|Hc].
  - pose proof (call_shape cls X args kw s Hc) as Hshape.
    destruct (value (TrackedType_get cls X) s) as [[a|]|e].
    + destruct Hshape as (o & n & reg & d & evs & _ & _ & _ & _ & Hh
                          & [-> | [e [-> | ->]]]); exists evs; by eauto.
    + destruct Hshape as (n & reg & d & evs & _ & _ & Hh & [-> | [e ->]]);
        exists evs; by eauto.
    + rewrite Hshape. exists []. simpl. by rewrite app_nil_r.
  - destruct (call_shape_untracked cls X args kw s Hc)
      as [-> | (d & evs & Hh & [-> | [e [-> | (n & reg & _ & _ & _ & ->)]]])];
      [exists []; simpl; by rewrite app_nil_r|exists evs; by eauto..].
Qed.

(** C10.  A class statement [class nom(parent): dct] whose parent is a
    tracked class raises in [TrackedType.__new__] when the body [dct] does
    not bind [_load], although the parent has a [_load] that the new class
    would inherit: the check looks at the body's dictionary only.  When the
    body binds [_load], the statement does not fail on that check. *)
Theorem C10_inherited_load_is_not_enough nom parent dct s :
  trackable parent →
  is_Some (class_getattr parent "_load") ∧
  (dct !! "_load" = None →
   class_getattr (PyClass nom [parent] dct) "_load" =
   class_getattr parent "_load" ∧
   define_class nom [parent] dct s =
   (Raise (Exception_ msg_load), set_mutex 0 s)) ∧
  (is_Some (dct !! "_load") →
   value (define_class nom [parent] dct) s ≠ Raise (Exception_ msg_load)).
Proof.
  intros Hp.
  destruct (trackable_inv _ Hp) as (pn & pp & pd & Hpeq & _ & [m Hm] & _).
  assert (class_lookup parent "_load" = Some m) as Hlook.
  { rewrite Hpeq. simpl. by rewrite lookup_insert_ne, body_dict_load, Hm. }
  assert (object_in [parent] = false) as Hob by (by rewrite Hpeq).
  split_and!.
  - unfold class_getattr. rewrite Hlook. by eexists.
  - intros Hnone. split.
    + unfold class_getattr. simpl. by rewrite Hnone, Hlook.
    + rewrite define_class_eq, new_class_tracked by done.
      apply has_key_false in Hnone. by rewrite Hnone.
  - intros Hsome%has_key_true. unfold value.
    rewrite define_class_eq, new_class_tracked by done. rewrite Hsome. simpl.
    destruct (has_key "__new__" dct); [done|].
    destruct (has_key "id" dct); [done|].
    by destruct (class_getattr parent "__init__").
Qed.

Lemma C10_witness :
  is_Some (class_getattr Widget "_load") ∧
  define_class "Knob" [Widget] ∅ widget_state =
  (Raise (Exception_ msg_load), set_mutex 0 widget_state) ∧
  value (define_class "Knob" [Widget] widget_body) widget_state ≠
  Raise (Exception_ msg_load).
Proof.
  pose proof (C10_inherited_load_is_not_enough "Knob" Widget ∅ widget_state
                Widget_trackable) as (H1 & H2 & _).
  pose proof (C10_inherited_load_is_not_enough "Knob" Widget widget_body
                widget_state Widget_trackable) as (_ & _ & H3).
  split; [exact H1|]. split; [exact (proj2 (H2 eq_refl))|].
  apply H3. by eexists.
Defined.

(** * Further properties *)

(** ** The registry: [add], [get], [clean] *)

Lemma get_run cls X s : run (TrackedType_get cls X) s = s.
Proof.
  unfold run, TrackedType_get, bind, cls_instances, deref, ret.
  destruct (registry_name cls) as [n|]; [|done].
  destruct (instances s !! n) as [reg|]; [|done].
  by destruct (reg !! X).
Qed.

(** [get] reads the registry of the class and the heap, nothing else. *)
Lemma get_ext cls X s s' :
  (∀ n, registry_name cls = Some n →
        instances s' !! n = instances s !! n) →
  (∀ n reg a, registry_name cls = Some n → instances s !! n = Some reg →
              reg !! X = Some a →
              (is_Some (heap s' !! a) ↔ is_Some (heap s !! a))) →
  value (TrackedType_get cls X) s' = value (TrackedType_get cls X) s.
Proof.
  intros Hi Hh.
  unfold value, TrackedType_get, bind, cls_instances, deref, ret.
  destruct (registry_name cls) as [n|]; [|done].
  rewrite (Hi n eq_refl).
  destruct (instances s !! n) as [reg|] eqn:Hreg; [|done].
  destruct (reg !! X) as [a|] eqn:HX; [|done]. simpl.
  specialize (Hh n reg a eq_refl Hreg HX).
  destruct (heap s' !! a), (heap s !! a); try done.
  - destruct (proj1 Hh) as [? [=]]; by eexists.
  - destruct (proj2 Hh) as [? [=]]; by eexists.
Qed.

(** X1.  [add] then [get]: once [cls.add(X, a)] has run for a live object
    [a] on a class that has a registry, [cls.get(X)] answers [a] without
    changing anything, and answers [None] once the collector has reclaimed
    [a], the entry staying where it is; the answers of [get] for the other
    ids of the class, and for the classes that use another registry, are
    what they were. *)
Theorem X1_add_then_get cls X a s n reg :
  registry_name cls = Some n → instances s !! n = Some reg →
  is_Some (heap s !! a) →
  let s' := run (TrackedType_add cls X a) s in
  value (TrackedType_add cls X a) s = Ok () ∧
  TrackedType_get cls X s' = (Ok (Some a), s') ∧
  TrackedType_get cls X (collect a s') = (Ok None, collect a s') ∧
  instances (collect a s') !! n = Some (<[X := a]> reg) ∧
  (∀ K, K ≠ X →
     value (TrackedType_get cls K) s' = value (TrackedType_get cls K) s) ∧
  (∀ cls' K, registry_name cls' ≠ Some n →
     value (TrackedType_get cls' K) s' = value (TrackedType_get cls' K) s).
Proof.
  intros Hn Hreg [o Ho] s'.
  assert (TrackedType_add cls X a s =
          (Ok (), set_instances (<[n := <[X := a]> reg]> (instances s)) s)) as Hadd.
  { unfold TrackedType_add, bind, cls_instances, store_instances.
    by rewrite Hn, Hreg. }
  assert (s' = set_instances (<[n := <[X := a]> reg]> (instances s)) s) as Hs'.
  { unfold s', run. by rewrite Hadd. }
  clearbody s'. subst s'. split_and!.
  - unfold value. by rewrite Hadd.
  - rewrite (get_entry cls X _ n (<[X := a]> reg) Hn); simpl;
      [|by rewrite lookup_insert_eq].
    by rewrite lookup_insert_eq, Ho.
  - rewrite (get_entry cls X _ n (<[X := a]> reg) Hn); simpl;
      [|by rewrite lookup_insert_eq].
    by rewrite lookup_insert_eq, lookup_delete_eq.
  - simpl. by rewrite lookup_insert_eq.
  - intros K HK. unfold value.
    rewrite (get_entry cls K _ n (<[X := a]> reg) Hn); simpl;
      [|by rewrite lookup_insert_eq].
    rewrite (get_entry cls K s n reg Hn Hreg). simpl.
    by rewrite lookup_insert_ne.
  - intros cls' K Hne. apply get_ext; [|done].
    intros n' Hn'. simpl. rewrite lookup_insert_ne; [done|]. by intros ->.
Qed.

Lemma X1_witness :
  TrackedType_get Widget (VInt 2) (run (TrackedType_add Widget (VInt 2) 0) widget_one) =
  (Ok (Some 0), run (TrackedType_add Widget (VInt 2) 0) widget_one) ∧
  value (TrackedType_get Widget (VInt 1))
    (run (TrackedType_add Widget (VInt 2) 0) widget_one) = Ok (Some 0).
Proof.
  assert (is_Some (heap widget_one !! 0)) as Hlive by (vm_compute; by eexists).
  pose proof (X1_add_then_get Widget (VInt 2) 0 widget_one "Widget"
                {[ VInt 1 := 0 ]} eq_refl eq_refl Hlive) as (_ & H1 & _ & _ & H2 & _).
  split.
  - exact H1.
  - rewrite H2; [vm_compute; reflexivity|done].
Defined.

(** X2.  [clean] on a class that has a registry: when the registry has no
    entry for [X] it raises [KeyError] and changes nothing; when it has one,
    alive or stale, the entry is deleted and [get] answers [None] for [X]
    afterwards.  Either way the answers of [get] for the other ids are what
    they were. *)
Theorem X2_clean cls X s n reg :
  registry_name cls = Some n → instances s !! n = Some reg →
  let s' := run (TrackedType_clean cls X) s in
  (reg !! X = None → TrackedType_clean cls X s = (Raise (KeyError X), s)) ∧
  (is_Some (reg !! X) →
   value (TrackedType_clean cls X) s = Ok () ∧
   instances s' = <[n := delete X reg]> (instances s) ∧
   heap s' = heap s ∧
   value (TrackedType_get cls X) s' = Ok None) ∧
  (∀ K, K ≠ X →
     value (TrackedType_get cls K) s' = value (TrackedType_get cls K) s).
Proof.
  intros Hn Hreg s'.
  assert (reg !! X = None → TrackedType_clean cls X s = (Raise (KeyError X), s))
    as Hmiss.
  { intros HX. unfold TrackedType_clean, bind, cls_instances.
    by rewrite Hn, Hreg, HX. }
  split_and!; [done| |].
  - intros [a HX]. unfold s', run, value.
    rewrite (clean_present cls X s n reg a Hn Hreg HX). simpl.
    split_and!; [done..|].
    rewrite (get_entry cls X _ n (delete X reg) Hn); simpl;
      [|by rewrite lookup_insert_eq].
    by rewrite lookup_delete_eq.
  - intros K HK. unfold s', run.
    destruct (reg !! X) as [a|] eqn:HX.
    + rewrite (clean_present cls X s n reg a Hn Hreg HX). unfold value.
      rewrite (get_entry cls K _ n (delete X reg) Hn); simpl;
        [|by rewrite lookup_insert_eq].
      rewrite (get_entry cls K s n reg Hn Hreg). simpl.
      by rewrite lookup_delete_ne.
    + by rewrite (Hmiss eq_refl).
Qed.

Lemma X2_witness :
  TrackedType_clean Widget (VInt 2) widget_one = (Raise (KeyError (VInt 2)), widget_one) ∧
  value (TrackedType_get Widget (VInt 1)) widget_one = Ok (Some 0) ∧
  value (TrackedType_get Widget (VInt 1))
    (run (TrackedType_clean Widget (VInt 1)) widget_one) = Ok None.
Proof.
  pose proof (X2_clean Widget (VInt 2) widget_one "Widget"
                {[ VInt 1 := 0 ]} eq_refl eq_refl) as (H1 & _ & _).
  pose proof (X2_clean Widget (VInt 1) widget_one "Widget"
                {[ VInt 1 := 0 ]} eq_refl eq_refl) as (_ & H2 & _).
  split; [by apply H1|]. split; [reflexivity|].
  apply H2. by eexists.
Defined.

(** ** What a construction call does to the state *)

(** What any construction call does, on any class: it acts on one object
    [obj], alive already or allocated by the call, whose [__dict__] the hooks
    rewrite; it changes no registry but the one of the class, and there the
    entry of [X] alone. *)
Lemma call_any cls X args kw s r s' :
  TrackedType_call cls X args kw s = (r, s') →
  ∃ obj o0 d evs,
    (heap s !! obj = Some o0 ∨ obj = next s ∧ o0 = Object cls ∅) ∧
    hooked (ob_type o0) obj X args (delete "force_reload" kw) (ob_dict o0) d evs ∧
    (heap s' = heap s ∧ evs = [] ∧ (∃ e, r = Raise e) ∨
     heap s' = <[obj := Object (ob_type o0) d]> (heap s)) ∧
    log s' = log s ++ evs ∧
    (next s' = next s ∨ next s' = S (next s)) ∧
    (r = Ok obj ∨ ∃ e, r = Raise e) ∧
    (instances s' = instances s ∨
     ∃ n reg reg', registry_name cls = Some n ∧ instances s !! n = Some reg ∧
                   instances s' = <[n := reg']> (instances s) ∧
                   ∀ K, K ≠ X → reg' !! K = reg !! K).
Proof.
  intros Hcall.
  assert (∀ e st, heap st = heap s → log st = log s → next st = next s →
                  instances st = instances s → (r, s') = (Raise e, st) →
    ∃ obj o0 d evs,
      (heap s !! obj = Some o0 ∨ obj = next s ∧ o0 = Object cls ∅) ∧
      hooked (ob_type o0) obj X args (delete "force_reload" kw) (ob_dict o0) d evs ∧
      (heap s' = heap s ∧ evs = [] ∧ (∃ e, r = Raise e) ∨
       heap s' = <[obj := Object (ob_type o0) d]> (heap s)) ∧
      log s' = log s ++ evs ∧
      (next s' = next s ∨ next s' = S (next s)) ∧
      (r = Ok obj ∨ ∃ e, r = Raise e) ∧
      (instances s' = instances s ∨
       ∃ n reg reg', registry_name cls = Some n ∧ instances s !! n = Some reg ∧
                     instances s' = <[n := reg']> (instances s) ∧
                     ∀ K, K ≠ X → reg' !! K = reg !! K)) as Hidle.
  { intros e st Hh Hl Hn Hi [= -> ->].
    exists (next s), (Object cls ∅), ∅, []. simpl.
    split_and!; [by right|constructor| |by rewrite app_nil_r|by left| |by left].
    - left. split_and!; [done..|by eexists].
    - right. by eexists. }
  destruct (constructs_tracked_dec cls) as [Hc|Hc].
  - pose proof (call_shape cls X args kw s Hc) as Hshape.
    destruct (value (TrackedType_get cls X) s) as [[a|]|e] eqn:Hget.
    + pose proof Hget as (n & reg & Hn & Hreg & _)%get_live.
      destruct (call_effect _ _ _ _ _ _ _ _ _ Hc Hcall Hn Hreg)
        as (obj & o0 & d & evs & Hobj & Hhk & _ & Hheap & Hlog & Hout).
      exists obj, o0, d, evs. split_and!; [|done|by right|done| | |].
      * destruct Hobj as [(_ & Ho & _)|(_ & -> & -> & _)]; [by left|by right].
      * destruct Hobj as [(_ & _ & _ & ->)|(_ & _ & _ & ->)]; [by left|by right].
      * destruct Hout as [[-> _]|[He _]]; [by left|by right].
      * destruct Hout as [[_ Hi]|[_ [Hi|Hi]]]; [right|by left|right];
          eexists n, reg, _; (split_and!; [done|done|exact Hi|]); intros K HK.
        -- by rewrite lookup_insert_ne.
        -- by rewrite lookup_delete_ne.
    + pose proof Hget as (n & reg & Hn & Hreg & _)%get_absent.
      destruct (call_effect _ _ _ _ _ _ _ _ _ Hc Hcall Hn Hreg)
        as (obj & o0 & d & evs & Hobj & Hhk & _ & Hheap & Hlog & Hout).
      exists obj, o0, d, evs. split_and!; [|done|by right|done| | |].
      * destruct Hobj as [(_ & Ho & _)|(_ & -> & -> & _)]; [by left|by right].
      * destruct Hobj as [(_ & _ & _ & ->)|(_ & _ & _ & ->)]; [by left|by right].
      * destruct Hout as [[-> _]|[He _]]; [by left|by right].
      * destruct Hout as [[_ Hi]|[_ [Hi|Hi]]]; [right|by left|right];
          eexists n, reg, _; (split_and!; [done|done|exact Hi|]); intros K HK.
        -- by rewrite lookup_insert_ne.
        -- by rewrite lookup_delete_ne.
    + rewrite Hshape in Hcall. refine (Hidle _ _ _ _ _ _ (eq_sym Hcall)); done.
  - destruct (call_shape_untracked cls X args kw s Hc)
      as [Hr | (d & evs & Hh & [Hr | [e [Hr | (n & reg & Hn & Hreg & HX & Hr)]]])];
      rewrite Hr in Hcall;
      [refine (Hidle _ _ _ _ _ _ (eq_sym Hcall)); done|..];
      injection Hcall as <- <-;
      exists (next s), (Object cls ∅), d, evs; simpl;
      (split_and!; [by right|done|right; by rewrite alter_insert_eq|done
                    |by right|..]).
    + by left.
    + by left.
    + right. by eexists.
    + by left.
    + right. by eexists.
    + right. exists n, reg, (delete X reg). split_and!; [done..|].
      intros K HK. by rewrite lookup_delete_ne.
Qed.

(** X3.  On a class that has a registry and leaves [get], [add] and
    [_instances] to the metaclass, a construction call for an id that can be
    a dictionary key (every id of this development) leaves the tracker lock
    as it found it, whatever it returns and whatever a hook raises:
    [TrackedObject.__new__] releases the lock before it calls [reload], and
    [__init__] runs after [__new__] has returned.  X4 has the path on which
    the lock stays held. *)
Theorem X3_lock_released cls X args kw s n reg :
  registry_name cls = Some n → instances s !! n = Some reg →
  plain_registry cls →
  mutex (run (TrackedType_call cls X args kw) s) = mutex s ∧
  mutex (run (TrackedObject_new cls X args kw) s) = mutex s.
Proof.
  intros Hn Hreg _. split.
  - destruct (constructs_tracked_dec cls) as [Hc|Hc].
    + destruct (TrackedType_call cls X args kw s) as [r s'] eqn:Hcall.
      destruct (call_effect _ _ _ _ _ _ _ _ _ Hc Hcall Hn Hreg)
        as (obj & o0 & d & evs & _ & _ & Hm & _).
      unfold run. by rewrite Hcall.
    + unfold run.
      by destruct (call_shape_untracked cls X args kw s Hc)
        as [-> | (d & evs & _ & [-> | [e [-> | (? & ? & _ & _ & _ & ->)]]])].
  - pose proof (get_entry cls X s n reg Hn Hreg) as Hg.
    destruct (reg !! X) as [a|] eqn:HX; [destruct (heap s !! a) as [o|] eqn:Ho|].
    + unfold run. rewrite (new_live cls X args kw s a); [|unfold value; by rewrite Hg].
      destruct (reload_phase a X args kw s o Ho) as (d & evs & r & _ & Hr).
      unfold bind at 1. rewrite Hr. by destruct r.
    + unfold run. rewrite (new_absent cls X args kw s n reg); [done| |done..].
      unfold value. by rewrite Hg.
    + unfold run. rewrite (new_absent cls X args kw s n reg); [done| |done..].
      unfold value. by rewrite Hg.
Qed.

Lemma X3_witness :
  mutex (run (TrackedType_call Flaky (VInt 1) [] ∅) flaky_state) = mutex flaky_state ∧
  value (TrackedType_call Flaky (VInt 1) [] ∅) flaky_state = Raise (Exception_ "boom").
Proof.
  split; [|vm_compute; reflexivity].
  apply (X3_lock_released Flaky (VInt 1) [] ∅ flaky_state "Flaky" ∅);
    [vm_compute; reflexivity..|].
  split_and!; vm_compute; reflexivity.
Defined.



(** [get] depends on the entry of the id in the registry of the class and on
    whether the instance registered there is alive. *)
Lemma get_frame cls K s s' :
  (∀ n, registry_name cls = Some n →
     match instances s !! n, instances s' !! n with
     | Some r, Some r' =>
         r' !! K = r !! K ∧
         ∀ a, r !! K = Some a → (is_Some (heap s' !! a) ↔ is_Some (heap s !! a))
     | None, None => True
     | _, _ => False
     end) →
  value (TrackedType_get cls K) s' = value (TrackedType_get cls K) s.
Proof.
  intros H.
  unfold value, TrackedType_get, bind, cls_instances, deref, ret.
  destruct (registry_name cls) as [n|]; [|done].
  specialize (H n eq_refl).
  destruct (instances s !! n) as [r|], (instances s' !! n) as [r'|]; try done.
  destruct H as [HK Hlive]. rewrite HK.
  destruct (r !! K) as [a|]; [|done]. simpl.
  specialize (Hlive a eq_refl).
  destruct (heap s' !! a), (heap s !! a); try done.
  - destruct (proj1 Hlive) as [? [=]]; by eexists.
  - destruct (proj2 Hlive) as [? [=]]; by eexists.
Qed.

(** A construction call for [X] on the registry [n] leaves the answers of
    [get] for every other id and every other registry as they were. *)
Lemma call_get_frame cls X args kw s cls' K :
  alloc_inv s →
  registry_name cls' ≠ registry_name cls ∨ K ≠ X →
  value (TrackedType_get cls' K) (run (TrackedType_call cls X args kw) s) =
  value (TrackedType_get cls' K) s.
Proof.
  intros Hinv Hne.
  destruct (TrackedType_call cls X args kw s) as [r s'] eqn:Hcall.
  destruct (call_any _ _ _ _ _ _ _ Hcall)
    as (obj & o0 & d & evs & Hobj & _ & Hheap & _ & _ & _ & Hinst).
  unfold run. rewrite Hcall. simpl.
  apply get_frame. intros n' Hn'.
  assert (∀ r a, instances s !! n' = Some r → r !! K = Some a →
                 (is_Some (heap s' !! a) ↔ is_Some (heap s !! a))) as Hlive.
  { intros r0 a Hr0 Ha. destruct Hheap as [(-> & _)| ->]; [done|].
    destruct (decide (a = obj)) as [->|Hao]; [|by rewrite lookup_insert_ne].
    rewrite lookup_insert_eq.
    destruct Hobj as [Ho|(-> & _)].
    - rewrite Ho. split; by eexists.
    - pose proof (registry_below _ Hinv _ _ _ _ Hr0 Ha). lia. }
  destruct Hinst as [Heq|(n & reg & reg' & Hn & Hreg & Heq & Hreg')].
  - rewrite Heq. destruct (instances s !! n') as [r0|] eqn:Hr0; [|done].
    split; [done|]. intros a Ha. by apply (Hlive r0).
  - rewrite Heq. destruct (decide (n' = n)) as [->|Hnn].
    + rewrite lookup_insert_eq, Hreg.
      assert (K ≠ X) as HK.
      { destruct Hne as [Hne|]; [|done]. by rewrite Hn, Hn' in Hne. }
      split; [by apply Hreg'|]. intros a Ha. by apply (Hlive reg).
    + rewrite lookup_insert_ne by done.
      destruct (instances s !! n') as [r0|] eqn:Hr0; [|done].
      split; [done|]. intros a Ha. by apply (Hlive r0).
Qed.

(** X5.  [TrackedType.__new__] begins by replacing the tracker lock.  A
    class statement, accepted or refused, therefore leaves a lock that is not
    held, even when the tracker was locked when the statement ran, and a
    release that follows raises.  The statement touches neither the objects
    nor the trace, and no registry but the one of its own name. *)
Theorem X5_class_statement_replaces_lock nom bases dct s :
  mutex (run (define_class nom bases dct) (run lock_tracker s)) = 0 ∧
  value release_tracker
    (run (define_class nom bases dct) (run lock_tracker s)) = Raise RuntimeError ∧
  heap (run (define_class nom bases dct) s) = heap s ∧
  next (run (define_class nom bases dct) s) = next s ∧
  log (run (define_class nom bases dct) s) = log s ∧
  (∀ n, n ≠ nom →
     instances (run (define_class nom bases dct) s) !! n = instances s !! n).
Proof.
  split_and!.
  - by destruct (define_class_run nom bases dct (run lock_tracker s)) as [-> | ->].
  - by destruct (define_class_run nom bases dct (run lock_tracker s)) as [-> | ->].
  - by destruct (define_class_run nom bases dct s) as [-> | ->].
  - by destruct (define_class_run nom bases dct s) as [-> | ->].
  - by destruct (define_class_run nom bases dct s) as [-> | ->].
  - intros n Hn.
    destruct (define_class_run nom bases dct s) as [-> | ->]; [done|].
    simpl. by rewrite lookup_insert_ne.
Qed.



(** What a construction call that returns leaves, on a class that does not
    construct through [TrackedObject.__new__]: a new object, in no
    registry. *)
Lemma call_untracked_ok cls X args kw s a s1 :
  ¬ constructs_tracked cls →
  TrackedType_call cls X args kw s = (Ok a, s1) →
  a = next s ∧ next s1 = S (next s) ∧ instances s1 = instances s ∧
  is_Some (heap s1 !! a).
Proof.
  intros Hc Hcall.
  destruct (call_shape_untracked cls X args kw s Hc)
    as [Hr | (d & evs & _ & [Hr | [e [Hr | (? & ? & _ & _ & _ & Hr)]]])];
    rewrite Hr in Hcall; try done.
  injection Hcall as <- <-. simpl. split_and!; [done..|].
  rewrite alter_insert_eq, lookup_insert_eq. by eexists.
Qed.

(** X7.  Two construction calls that return, made one after the other for
    different classes' registries or for different ids, return different
    instances, and the instance of a class that constructs through
    [TrackedObject.__new__] is still the one its registry gives for its id
    after the second call. *)
Theorem X7_independence cls1 cls2 X1 X2 args1 kw1 args2 kw2 s a s1 b s2 :
  reachable any_class s →
  registry_name cls1 ≠ registry_name cls2 ∨ X1 ≠ X2 →
  TrackedType_call cls1 X1 args1 kw1 s = (Ok a, s1) →
  TrackedType_call cls2 X2 args2 kw2 s1 = (Ok b, s2) →
  a ≠ b ∧
  (constructs_tracked cls1 → value (TrackedType_get cls1 X1) s2 = Ok (Some a)) ∧
  (constructs_tracked cls2 → value (TrackedType_get cls2 X2) s2 = Ok (Some b)).
Proof.
  intros Hr Hne Hc1 Hc2.
  assert (s1 = run (TrackedType_call cls1 X1 args1 kw1) s) as Hs1
    by (unfold run; by rewrite Hc1).
  assert (s2 = run (TrackedType_call cls2 X2 args2 kw2) s1) as Hs2
    by (unfold run; by rewrite Hc2).
  assert (reachable any_class s1) as Hr1
    by (rewrite Hs1; by apply reachable_call).
  assert (reachable any_class s2) as Hr2
    by (rewrite Hs2; by apply reachable_call).
  pose proof (reachable_alloc_inv _ _ Hr) as Hinv.
  pose proof (reachable_alloc_inv _ _ Hr1) as Hinv1.
  assert (constructs_tracked cls1 →
          value (TrackedType_get cls1 X1) s2 = Ok (Some a)) as Ha.
  { intros Ht1. pose proof (call_ok_registered _ _ _ _ _ _ _ Ht1 Hc1) as Ha1.
    rewrite Hs2, call_get_frame; [done|done|done]. }
  assert (constructs_tracked cls2 →
          value (TrackedType_get cls2 X2) s2 = Ok (Some b)) as Hb.
  { intros Ht2. by eapply call_ok_registered. }
  split; [|done].
  destruct (constructs_tracked_dec cls2) as [Ht2|Ht2].
  - destruct (constructs_tracked_dec cls1) as [Ht1|Ht1].
    + intros ->.
      pose proof (Ha Ht1) as (n1 & r1 & Hn1 & Hr1' & HX1 & _)%get_live.
      pose proof (Hb Ht2) as (n2 & r2 & Hn2 & Hr2' & HX2 & _)%get_live.
      destruct (registry_inj _ (reachable_alloc_inv _ _ Hr2) _ _ _ _ _ _ _
                  Hr1' HX1 Hr2' HX2) as [-> ->].
      destruct Hne as [Hne|Hne]; [|done]. by rewrite Hn1, Hn2 in Hne.
    + destruct (call_untracked_ok _ _ _ _ _ _ _ Ht1 Hc1) as (-> & Hnx & Hi & _).
      pose proof (call_shape cls2 X2 args2 kw2 s1 Ht2) as Hshape.
      destruct (value (TrackedType_get cls2 X2) s1) as [[c|]|e] eqn:Hget.
      * pose proof Hget as (n2 & r2 & Hn2 & Hr2' & HX2 & _)%get_live.
        pose proof (call_live_same _ _ _ _ _ _ _ _ Ht2 Hget Hc2) as ->.
        rewrite Hi in Hr2'.
        pose proof (registry_below _ Hinv _ _ _ _ Hr2' HX2). lia.
      * destruct Hshape as (? & ? & ? & ? & _ & _ & _ & [Hok|[e Hrs]]);
          rewrite Hc2 in *; [|done]. injection Hok as -> _. lia.
      * by rewrite Hshape in Hc2.
  - destruct (call_untracked_ok _ _ _ _ _ _ _ Ht2 Hc2) as (-> & _).
    destruct (call_any _ _ _ _ _ _ _ Hc1)
      as (obj & o0 & d & evs & Hobj & _ & Hheap & _ & Hnx & [[= <-]|[e [=]]] & _).
    assert (is_Some (heap s1 !! a)) as [o Ho].
    { destruct Hheap as [(_ & _ & e & [=])| ->].
      rewrite lookup_insert_eq. by eexists. }
    pose proof (heap_below _ Hinv1 _ _ Ho). lia.
Qed.

Lemma X7_witness :
  value (TrackedType_call Dial (VInt 1) [] ∅)
    (run (TrackedType_call Widget (VInt 1) [] ∅) dial_state) = Ok 1 ∧
  0 ≠ 1.
Proof.
  split; [vm_compute; reflexivity|].
  assert (TrackedType_call Widget (VInt 1) [] ∅ dial_state =
          (Ok 0, run (TrackedType_call Widget (VInt 1) [] ∅) dial_state)) as H1
    by (vm_compute; reflexivity).
  assert (TrackedType_call Dial (VInt 1) [] ∅
            (run (TrackedType_call Widget (VInt 1) [] ∅) dial_state) =
          (Ok 1, run (TrackedType_call Dial (VInt 1) [] ∅)
                   (run (TrackedType_call Widget (VInt 1) [] ∅) dial_state))) as H2
    by (vm_compute; reflexivity).
  refine (proj1 (X7_independence Widget Dial (VInt 1) (VInt 1) [] ∅ [] ∅
                   dial_state 0 _ 1 _ _ _ H1 H2)).
  - eapply rtc_r; [exact widget_state_reachable|]. apply step_define.
  - left. vm_compute. congruence.
Defined.



(** ** The id of an instance *)

(** Hooks that leave [_id] alone never change an id that is set. *)
Lemma hooked_keeps_set_id c obj X args kw d d' evs v :
  hooks_keep_id c → hooked c obj X args kw d d' evs →
  d !! "_id" = Some v → v ≠ VNone → d' !! "_id" = Some v.
Proof.
  intros Hk H Hd Hv.
  induction H as [d|d d' evs name h H IH Hh|d d' evs H IH Hnone].
  - done.
  - rewrite (Hk _ _ Hh). by apply IH.
  - specialize (IH Hd). rewrite IH in Hnone. simpl in Hnone. by destruct v.
Qed.

(** X9.  An id that is set is never reassigned: in a reachable state of a
    program whose hooks leave [_id] alone, if the property [id] of a live
    object gives [v] (not [None]), it still gives [v] after any construction
    call, on any class, for any id, forced or not, returning or raising. *)
Theorem X9_id_never_reassigned cls X args kw s b o v :
  reachable hooks_keep_id s →
  heap s !! b = Some o → ob_dict o !! "_id" = Some v → v ≠ VNone →
  value (TrackedObject_id b) s = Ok v ∧
  value (TrackedObject_id b) (run (TrackedType_call cls X args kw) s) = Ok v.
Proof.
  intros Hr Hb Hv Hnone.
  assert (∀ st o', heap st !! b = Some o' → ob_dict o' !! "_id" = Some v →
                   value (TrackedObject_id b) st = Ok (MData v)) as Hread.
  { intros st o' Ho' Hv'. rewrite (id_value _ _ _ Ho'). unfold lookup_attr.
    by rewrite Hv'. }
  split; [by apply (Hread s o)|].
  destruct (TrackedType_call cls X args kw s) as [r s'] eqn:Hcall.
  destruct (call_any _ _ _ _ _ _ _ Hcall)
    as (obj & o0 & d & evs & Hobj & Hhk & Hheap & _).
  unfold run. rewrite Hcall. simpl.
  destruct Hheap as [(Hheap & _)|Hheap].
  { apply (Hread s' o); [by rewrite Hheap|done]. }
  destruct (decide (b = obj)) as [->|Hbo].
  - destruct Hobj as [Ho|(-> & _)].
    + assert (o0 = o) as -> by congruence.
      apply (Hread s' (Object (ob_type o) d)).
      * rewrite Hheap. by rewrite lookup_insert_eq.
      * simpl. eapply hooked_keeps_set_id; [|exact Hhk|exact Hv|done].
        by apply (live_keep_id _ (reachable_id_inv _ Hr) obj).
    + pose proof (heap_below _ (reachable_alloc_inv _ _ Hr) _ _ Hb). lia.
  - apply (Hread s' o); [|done].
    rewrite Hheap. by rewrite lookup_insert_ne.
Qed.

Lemma widget_one_reachable : reachable hooks_keep_id widget_one.
Proof.
  apply reachable_call; [exact Widget_keeps_id|].
  apply reachable_define, rtc_refl.
Qed.

Lemma X9_witness :
  value (TrackedObject_id 0)
    (run (TrackedType_call Widget (VInt 1) [] {[ "force_reload" := VInt 1 ]})
       widget_one) = Ok (VInt 1).
Proof.
  refine (proj2 (X9_id_never_reassigned Widget (VInt 1) [] {[ "force_reload" := VInt 1 ]}
                   widget_one 0
                   (Object Widget {[ "_id" := VInt 1; "color" := VStr "red" ]})
                   (VInt 1) widget_one_reachable _ _ _)).
  - vm_compute. reflexivity.
  - vm_compute. reflexivity.
  - discriminate.
Defined.

Lemma widget_state_leaves_id : reachable leaves_id widget_state.
Proof. apply reachable_define, rtc_refl. Qed.

(** X10.  In a program whose classes leave [_id] alone (no body binds it,
    no hook assigns it), the property [id] of the instance that a
    construction call for [X] returned, on a class that constructs through
    [TrackedObject.__new__], gives [X] whenever it gives anything; and after
    a first construction on a class that [TrackedObject.__init__]
    initializes it does give [X]. *)
Theorem X10_id_is_the_key cls X args kw s a s1 :
  reachable leaves_id s → leaves_id cls → constructs_tracked cls →
  TrackedType_call cls X args kw s = (Ok a, s1) →
  (∀ m, value (TrackedObject_id a) s1 = Ok m → m = MData X) ∧
  (initializes_tracked cls → value (TrackedType_get cls X) s = Ok None →
   TrackedObject_id a s1 = (Ok (MData X), s1)).
Proof.
  intros Hr Hl Hc Hcall.
  assert (s1 = run (TrackedType_call cls X args kw) s) as Hs1
    by (unfold run; by rewrite Hcall).
  assert (reachable leaves_id s1) as Hr1
    by (rewrite Hs1; by apply reachable_call).
  split.
  - intros m.
    pose proof (call_ok_registered _ _ _ _ _ _ _ Hc Hcall)
      as (n & reg & Hn & Hreg & HX & [o Ho])%get_live.
    rewrite (id_value _ _ _ Ho).
    destruct (reachable_live _ _ _ _ Hr1 Ho) as [_ Hu].
    assert (reachable hooks_keep_id s1) as Hr'
      by (eapply reachable_mono; [|exact Hr1]; by intros c [? _]).
    unfold lookup_attr. rewrite Hu.
    destruct (registered_id _ (reachable_id_inv _ Hr') _ _ _ _ _ Hreg HX Ho)
      as [-> | ->]; [done|]. by intros [= <-].
  - intros Hi Hget. destruct Hl as [Hk Hu].
    destruct (first_construction_obs cls X args kw s Hc Hi
                (tracked_reads_None _ Hu) Hget)
      as (n & reg & Hn & Hreg & Hobs). cbv zeta in Hobs.
    destruct Hobs as (Hval & Hheap & _).
    unfold value in Hval. rewrite Hcall in Hval. simpl in Hval.
    rewrite <- Hs1 in Hheap.
    destruct (initialize cls (next s) X args (delete "force_reload" kw) ∅).1.2
      eqn:Hini; [done|]. injection Hval as ->.
    unfold TrackedObject_id, bind.
    rewrite (getattr_eq _ _ s1 (Object cls (initialize cls (next s) X args
               (delete "force_reload" kw) ∅).1.1)).
    2:{ rewrite Hheap. by rewrite lookup_insert_eq. }
    simpl. unfold lookup_attr. by rewrite (initialize_id _ _ _ _ _ _ Hk).
Qed.

Lemma X10_witness :
  TrackedObject_id 0 widget_one = (Ok (MData (VInt 1)), widget_one).
Proof.
  assert (TrackedType_call Widget (VInt 1) [] ∅ widget_state = (Ok 0, widget_one))
    as Hcall by (vm_compute; reflexivity).
  refine (proj2 (X10_id_is_the_key Widget (VInt 1) [] ∅ widget_state 0 widget_one
                   widget_state_leaves_id Widget_leaves_id (proj1 Widget_tracked)
                   Hcall) (proj1 (proj2 Widget_tracked)) _).
  vm_compute. reflexivity.
Defined.

(** X11.  In a reachable state no instance is registered twice: the live
    instance [get] answers for an id of a class is not what [get] answers
    for another id, or for a class that uses another registry. *)
Theorem X11_registered_once good cls cls' K K' a s :
  reachable good s →
  registry_name cls ≠ registry_name cls' ∨ K ≠ K' →
  value (TrackedType_get cls K) s = Ok (Some a) →
  value (TrackedType_get cls' K') s ≠ Ok (Some a).
Proof.
  intros Hr Hne (n & reg & Hn & Hreg & HK & _)%get_live
                (n' & reg' & Hn' & Hreg' & HK' & _)%get_live.
  destruct (registry_inj _ (reachable_alloc_inv _ _ Hr) _ _ _ _ _ _ _
              Hreg HK Hreg' HK') as [-> ->].
  destruct Hne as [Hne|Hne]; [|done]. by rewrite Hn, Hn' in Hne.
Qed.

Lemma X11_witness :
  value (TrackedType_get Widget (VInt 1)) widget_one = Ok (Some 0) ∧
  value (TrackedType_get Widget (VInt 2)) widget_one ≠ Ok (Some 0).
Proof.
  assert (value (TrackedType_get Widget (VInt 1)) widget_one = Ok (Some 0)) as H
    by (vm_compute; reflexivity).
  split; [exact H|].
  refine (X11_registered_once hooks_keep_id Widget Widget (VInt 1) (VInt 2) 0
            widget_one widget_one_reachable _ H).
  right. discriminate.
Defined.

(** ** What [TrackedType.__new__] makes of a class body *)



(** X12.  What the hooks of a subclass are.  For [class nom(parent): dct]
    accepted by [TrackedType.__new__], [parent] being a class of the family:
    [_load] is the one of the body; [reload] is the one of the body or else
    the [_load] of the body, never a [reload] inherited from [parent]; the
    pre-initialization hook is the [__init__] of the body, or else what
    [parent] had; [__init__] and [id] are those of [TrackedObject]. *)
Theorem X12_subclass_hooks nom parent dct s cls :
  trackable parent →
  value (TrackedType_new nom [parent] dct) s = Ok cls →
  is_Some (dct !! "_load") ∧
  class_getattr cls "_load" = dct !! "_load" ∧
  class_getattr cls "reload" = reload_of dct ∧
  (dct !! "reload" = None → class_getattr cls "reload" = dct !! "_load") ∧
  class_getattr cls "_tracked_init" =
    match dct !! "__init__", dct !! "_tracked_init" with
    | Some m, _ => Some m
    | None, Some m => Some m
    | None, None => class_getattr parent "_tracked_init"
    end ∧
  class_getattr cls "__init__" = Some (MNative fn_TrackedObject_init) ∧
  class_getattr cls "id" = Some (MNative fn_TrackedObject_id).
Proof.
  intros Hp Hnew.
  assert (trackable cls) as Ht by (by eapply trackable_descendant).
  assert (is_object parent = false) as Hob
    by (by destruct (trackable_inv _ Hp) as (? & ? & ? & -> & _)).
  destruct (trackable_inv _ Ht) as (nom' & parent' & dct' & Hcls & _).
  assert (is_Some (dct !! "_load")) as [m Hm].
  { revert Hnew. unfold value.
    rewrite new_class_tracked by (simpl; by rewrite Hob). simpl.
    destruct (has_key "_load" dct) eqn:Hl; [|done]. intros _.
    by apply has_key_true. }
  assert (class_getattr cls "reload" = reload_of dct) as Hre.
  { eapply defined_reload; [done|]. simpl. by rewrite Hob. }
  split_and!.
  - by exists m.
  - rewrite (defined_getattr _ _ _ _ _ "_load" Hnew Hob) by done.
    by rewrite body_dict_load, Hm.
  - done.
  - intros Hnone. rewrite Hre. unfold reload_of. by rewrite Hnone.
  - rewrite (defined_getattr _ _ _ _ _ "_tracked_init" Hnew Hob) by done.
    rewrite body_dict_tracked_init.
    by destruct (dct !! "__init__"), (dct !! "_tracked_init").
  - by apply trackable_init.
  - by apply trackable_id.
Qed.

Lemma X12_witness :
  class_getattr Flaky "reload" = Some (MFun flaky_reload) ∧
  class_getattr Steady "reload" = Some (MFun widget_load).
Proof.
  split; [vm_compute; reflexivity|].
  refine (eq_trans (proj1 (proj2 (proj2 (proj2
            (X12_subclass_hooks "Steady" Flaky widget_body flaky_state Steady
               Flaky_trackable _)))) _) _);
    vm_compute; reflexivity.
Defined.





(** X15.  Nor is [reload] checked.  On a live instance of a class whose
    [reload] is a value, a forced reload through [TrackedObject.__new__]
    raises [TypeError] and leaves the whole state, lock included, as it
    was. *)
Theorem X15_reload_not_callable cls X args kw s a o v :
  constructs_tracked cls →
  value (TrackedType_get cls X) s = Ok (Some a) →
  heap s !! a = Some o →
  class_getattr (ob_type o) "reload" = Some (MData v) →
  truthy (force_reload kw) = true →
  TrackedType_call cls X args kw s = (Raise TypeError, s).
Proof.
  intros Hc Hget Ho Hre Hf.
  assert (∃ w, lookup_attr (ob_type o) (ob_dict o) "reload" = Some (MData w))
    as [w Hw].
  { unfold lookup_attr. destruct (ob_dict o !! "reload") as [w|]; by eexists. }
  rewrite call_finish by done. unfold bind at 1.
  rewrite (new_live _ _ _ _ _ _ Hget), Hf.
  unfold bind at 1. by rewrite (call_method_data _ _ _ _ _ _ _ _ Ho Hw).
Qed.

Lemma X15_witness :
  TrackedType_call Odd (VInt 1) [] {[ "force_reload" := VInt 1 ]} odd_one =
  (Raise TypeError, odd_one).
Proof.
  refine (X15_reload_not_callable Odd (VInt 1) [] {[ "force_reload" := VInt 1 ]}
            odd_one 0
            (Object Odd {[ "_id" := VInt 1; "color" := VStr "red" ]})
            (VInt 5) _ _ _ _ _);
    vm_compute; reflexivity.
Defined.

(** ** Classes that list [object] among their bases *)



(** ** Edge cases of the construction call *)



(** X18.  A tracked class statement without bases passes the checks of the
    body and then fails on [bases[0]] with [IndexError]; no class is made,
    and but for the lock the state is as it was. *)
Theorem X18_no_bases nom dct s :
  is_Some (dct !! "_load") → dct !! "__new__" = None → dct !! "id" = None →
  define_class nom [] dct s = (Raise IndexError, set_mutex 0 s).
Proof.
  intros Hl%has_key_true Hn%has_key_false Hi%has_key_false.
  rewrite define_class_eq, new_class_tracked by done.
  by rewrite Hl, Hn, Hi.
Qed.

Lemma X18_witness :
  define_class "Alone" [] widget_body init_state =
  (Raise IndexError, set_mutex 0 init_state).
Proof.
  apply (X18_no_bases "Alone" widget_body init_state); [by eexists|done|done].
Defined.




